(** * Healthcare MDM application: cache, SQL pipelines and stewardship

    A shallow embedding of [app/app.py]: the session-state result cache and
    its decorator, the SQL statements sent to the warehouse (read as
    relational operations on the tables), and the stewardship updates of
    golden records. *)

From Stdlib Require Import QArith Ascii.
From stdpp Require Import gmap strings list sorting pretty.

Local Open Scope string_scope.

(** ** Rows and data frames *)

(** A row of the source patient table.  Every column except the id is a
    nullable text column ([None] is SQL NULL, or a column the frame lacks). *)
Record SourceRecord := {
  patient_id : Z;
  medical_record_num : option string;
  patient_name : option string;
  date_of_birth : option string;
  medicare_number : option string;
  phone : option string;
  email : option string;
  address : option string;
  suburb : option string;
  state : option string;
  postcode : option string;
  private_health_fund : option string;
  membership_number : option string;
  emergency_contact : option string;
  gp_name : option string;
  blood_type : option string;
  gender : option string;
  source_system : option string
}.

(** A cell of a data frame or of the golden table. *)
Inductive Cell :=
| VNull
| VInt (n : Z)
| VText (s : string)
| VDouble (q : Q)
| VTimestamp (t : Q)
| VList (l : list string).

Definition text_cell (text : option string) : Cell :=
  match text with
  | Some s => VText s
  | None => VNull
  end.

(** A row of the quality frame: three columns of the patient and the three
    members of the assessment (text when they come from the warehouse,
    numbers and lists in the demo frame). *)
Record QualityRow := {
  q_patient_id : Z;
  q_patient_name : option string;
  q_source_system : option string;
  quality_score : Cell;
  completeness : Cell;
  issues : Cell
}.

(** A row of the duplicate query; the four members of the model's answer
    are text, as [get_json_object] returns them. *)
Record DuplicateRow := {
  id1 : Z;
  id2 : Z;
  name1 : option string;
  name2 : option string;
  system1 : option string;
  system2 : option string;
  similarity_score : option string;
  is_match : option string;
  confidence : option string;
  match_reason : option string
}.

(** A golden row maps column names to cells, as the UPDATE statements
    address columns by name. *)
Abbreviation GoldenRow := (gmap string Cell).

Inductive DataFrame :=
| PatientFrame (rows : list SourceRecord)
| QualityFrame (rows : list QualityRow)
| DuplicateFrame (rows : list DuplicateRow)
| GoldenFrame (rows : list GoldenRow)
| EmptyFrame.

(** ** Demo data *)

(** [str.zfill]: left-pad with zeros to [width], after a leading sign. *)
Fixpoint zeros (n : nat) : string :=
  match n with
  | O => ""
  | S n => String "0"%char (zeros n)
  end.

Definition zfill (width : nat) (s : string) : string :=
  match s with
  | String c rest =>
      if bool_decide (c = "+"%char ∨ c = "-"%char)
      then String c (zeros (width - String.length s) +:+ rest)
      else zeros (width - String.length s) +:+ s
  | EmptyString => zeros width
  end.

Definition twice {A} (l : list A) : list A := l ++ l.

Definition demo_names : list string :=
  ["John Smith"; "J. Smith"; "Jane Doe"; "Jon Smythe"; "Janet Doe";
   "John Smith"; "Jake Johnson"; "Janie Doe"; "William Turner";
   "Linda Carter"; "Pedro Alvarez"; "Amy Nguyen"; "Marcus Lee";
   "Sara Patel"; "David Kim"; "Elena Garcia"].

Definition demo_systems : list string :=
  twice ["EMR_System_A"; "EMR_System_B"; "EMR_System_A"; "Lab_System";
         "Billing_System"; "Registration_System"; "EMR_System_A";
         "Pharmacy_System"].

Definition demo_medicare : list (option string) :=
  twice [Some "2428 9123 4567 8"; Some "2428912345678"; Some "2987 6543 2109 8";
         Some "2428 9123 4567 8"; Some "2987654321098"; None;
         Some "2456 7890 1234 5"; Some "2987 6543 2109 8"].

Definition demo_suburbs : list string :=
  ["Melbourne"; "Melbourne"; "Carlton"; "Melbourne"; "Carlton"; "Melbourne";
   "Brisbane"; "Carlton"; "Adelaide"; "Sydney"; "Perth"; "Melbourne";
   "South Yarra"; "Adelaide"; "Perth"; "Sydney"].

Definition demo_states : list string :=
  ["VIC"; "VIC"; "VIC"; "VIC"; "VIC"; "VIC"; "QLD"; "VIC";
   "SA"; "NSW"; "WA"; "VIC"; "VIC"; "SA"; "WA"; "NSW"].

Definition demo_postcodes : list string :=
  ["3000"; "3000"; "3053"; "3000"; "3053"; "3000"; "4000"; "3053";
   "5000"; "2000"; "6000"; "3000"; "3141"; "5000"; "6000"; "2000"].

Definition demo_funds : list string :=
  twice ["Medibank"; "Medibank Private"; "BUPA"; "Medibank";
         "BUPA Health"; "Medibank"; "HCF"; "BUPA"].

Definition demo_blood : list (option string) :=
  twice [Some "O+"; Some "O+"; Some "A-"; Some "O+"; Some "A-"; None;
         Some "B+"; Some "A-"].

Definition demo_genders : list string :=
  twice ["M"; "Male"; "F"; "M"; "Female"; "M"; "M"; "F"].

Definition generate_demo_data : DataFrame :=
  PatientFrame
    ((λ i : nat,
       {| patient_id := Z.of_nat (S i);
          medical_record_num := Some ("MRN" +:+ zfill 6 (pretty (S i)));
          patient_name := demo_names !! i;
          date_of_birth := None;
          medicare_number := mjoin (demo_medicare !! i);
          phone := None; email := None; address := None;
          suburb := demo_suburbs !! i;
          state := demo_states !! i;
          postcode := demo_postcodes !! i;
          private_health_fund := demo_funds !! i;
          membership_number := None; emergency_contact := None;
          gp_name := None;
          blood_type := mjoin (demo_blood !! i);
          gender := demo_genders !! i;
          source_system := demo_systems !! i |}) <$> seq 0 16).

Definition demo_quality_scores : list Z :=
  [95; 88; 92; 85; 78; 65; 90; 87; 93; 89; 82; 94; 86; 91; 83; 88]%Z.

Definition demo_completeness : list Q :=
  [95#100; 82#100; 89#100; 78#100; 71#100; 58#100; 87#100; 83#100;
   91#100; 85#100; 79#100; 92#100; 81#100; 88#100; 80#100; 84#100]%Q.

Definition demo_issues : list (list string) :=
  [["None"]; ["Missing emergency contact"]; ["None"]; ["Missing blood type"];
   ["Missing Medicare number"; "Incomplete address"];
   ["Missing Medicare number"; "Missing phone"; "Missing blood type"];
   ["None"]; ["Missing emergency contact"]; ["None"]; ["None"];
   ["Missing blood type"]; ["None"]; ["Missing emergency contact"]; ["None"];
   ["Missing blood type"]; ["None"]].

Definition generate_demo_quality_data : DataFrame :=
  QualityFrame
    ((λ i : nat,
       {| q_patient_id := Z.of_nat (S i);
          q_patient_name := demo_names !! i;
          q_source_system := demo_systems !! i;
          quality_score := from_option VInt VNull (demo_quality_scores !! i);
          completeness := from_option VDouble VNull (demo_completeness !! i);
          issues := from_option VList VNull (demo_issues !! i) |}) <$> seq 0 16).

(** ** Session state *)

Record DbConfig := {
  catalog_name : string;
  schema_name : string;
  table_name : string;
  golden_table_name : string
}.

Definition default_db_config : DbConfig :=
  {| catalog_name := "danny_catalog";
     schema_name := "healthcare_mdm_schema";
     table_name := "patients";
     golden_table_name := "patients_gold" |}.

(** [st.session_state]: the configuration and the two cache dictionaries.
    Timestamps are the readings of [time.time()], in seconds. *)
Record Session := {
  db_config : DbConfig;
  model_name : string;
  data_cache : gmap string DataFrame;
  cache_timestamps : gmap string Q
}.

Definition initial_session : Session :=
  {| db_config := default_db_config;
     model_name := "databricks-meta-llama-3-3-70b-instruct";
     data_cache := ∅;
     cache_timestamps := ∅ |}.

(** Cache expiry time in seconds (5 minutes). *)
Definition CACHE_EXPIRY : Q := 300.

Definition Qltb (x y : Q) : bool := negb (Qle_bool y x).

Definition is_cache_valid (now : Q) (cache_key : string) (s : Session) : bool :=
  match cache_timestamps s !! cache_key with
  | None => false
  | Some cache_time => Qltb (now - cache_time) CACHE_EXPIRY
  end.

Definition get_cached_data (now : Q) (cache_key : string) (s : Session)
  : option DataFrame :=
  if is_cache_valid now cache_key s then data_cache s !! cache_key else None.

Definition set_cached_data (now : Q) (cache_key : string) (data : DataFrame)
    (s : Session) : Session :=
  {| db_config := db_config s;
     model_name := model_name s;
     data_cache := <[cache_key := data]> (data_cache s);
     cache_timestamps := <[cache_key := now]> (cache_timestamps s) |}.

Definition clear_cache (s : Session) : Session :=
  {| db_config := db_config s;
     model_name := model_name s;
     data_cache := ∅;
     cache_timestamps := ∅ |}.

Definition get_ai_model_name (s : Session) : string := model_name s.

Definition get_table_reference (table_type : string) (s : Session) : string :=
  let config := db_config s in
  if bool_decide (table_type = "golden")
  then catalog_name config +:+ "." +:+ schema_name config +:+ "."
       +:+ golden_table_name config
  else catalog_name config +:+ "." +:+ schema_name config +:+ "."
       +:+ table_name config.

(** ** The caching decorator *)

(** What a call of a Python function ends in. *)
Inductive outcome (A : Type) :=
| Returned (a : A)
| Raised (e : string).
Arguments Returned {A} a.
Arguments Raised {A} e.

(** [sub in s] on Python strings. *)
Definition contains (sub s : string) : bool :=
  bool_decide (is_Some (String.index 0 sub s)).

(** The key the decorator builds from the function's name and the session's
    table configuration. *)
Definition cache_key_of (func_name : string) (s : Session) : string :=
  let config := db_config s in
  func_name +:+ "_" +:+ catalog_name config +:+ "_" +:+ schema_name config
  +:+ "_" +:+ table_name config.

(** The frame the decorator returns in place of a failed query. *)
Definition fallback_data (func_name : string) : DataFrame :=
  if contains "patient" func_name then generate_demo_data
  else if contains "quality" func_name then generate_demo_quality_data
  else EmptyFrame.

(** One call of a decorated function: what the call ends in, the session it
    leaves, whether the wrapped function ran, and the message shown with
    [st.error], if any. *)
Record WrapperRun := {
  returned : outcome DataFrame;
  session_after : Session;
  func_invoked : bool;
  error_shown : option string
}.

(** [wrapper] inside [async_query_wrapper].  [func] is the wrapped function
    applied to the call's arguments; [now_read] and [now_store] are the
    clock readings taken by [is_cache_valid] and by [set_cached_data]. *)
Definition async_query_wrapper (func_name : string)
    (func : Session → outcome DataFrame) (now_read now_store : Q)
    (s : Session) : WrapperRun :=
  let cache_key := cache_key_of func_name s in
  match get_cached_data now_read cache_key s with
  | Some cached_data =>
      {| returned := Returned cached_data; session_after := s;
         func_invoked := false; error_shown := None |}
  | None =>
      match func s with
      | Returned result =>
          {| returned := Returned result;
             session_after := set_cached_data now_store cache_key result s;
             func_invoked := true; error_shown := None |}
      | Raised e =>
          {| returned := Returned (fallback_data func_name);
             session_after := s;
             func_invoked := true;
             error_shown := Some ("Query failed: " +:+ e) |}
      end
  end.

(** ** The warehouse's functions *)

(** [ORDER BY]: the rows sorted by [before], rows that tie staying in the
    order they were produced in (SQL leaves their order open). *)
Fixpoint insert_by {A} (before : A → A → bool) (x : A) (l : list A) : list A :=
  match l with
  | [] => [x]
  | y :: l' => if before x y then x :: l else y :: insert_by before x l'
  end.

Fixpoint order_by {A} (before : A → A → bool) (l : list A) : list A :=
  match l with
  | [] => []
  | x :: l' => insert_by before x (order_by before l')
  end.

(** [ORDER BY key DESC]: [desc_text k1 k2] when a row with key [k1] may stand
    before a row with key [k2]; NULL keys stand last.  Text is ordered by
    character code, a proper prefix first. *)
Definition desc_text (k1 k2 : option string) : bool :=
  match k1, k2 with
  | _, None => true
  | None, Some _ => false
  | Some a, Some b => String.leb b a
  end.

Definition desc_int (k1 k2 : option Z) : bool :=
  match k1, k2 with
  | _, None => true
  | None, Some _ => false
  | Some a, Some b => (b <=? a)%Z
  end.

(** The [responseFormat] argument of [ai_query], by the name of its schema. *)
Inductive ResponseFormat :=
| QualityFormat
| SimilarityFormat
| GoldenRecordFormat.

(** A JSON object with scalar members, each kept as the text that
    [get_json_object] returns for it. *)
Abbreviation Json := (gmap string string).

(** The functions of the warehouse this application relies on and does not
    define: the hosted model behind [ai_query] (with and without a response
    format) and the casts of text to numbers. *)
Class AiFunctions := {
  ai_query : string → option string → option string;
  ai_query_json : string → option string → ResponseFormat → option Json;
  cast_double : option string → option Q;
  cast_int : option string → option Z
}.

(** [get_json_object(json, '$.member')]. *)
Definition get_json_object (json : option Json) (path : string) : option string :=
  if String.prefix "$." path
  then j ← json; j !! String.substring 2 (String.length path - 2) path
  else None.

(** [CONCAT]: NULL as soon as one argument is NULL. *)
Fixpoint CONCAT (args : list (option string)) : option string :=
  match args with
  | [] => Some ""
  | a :: rest => x ← a; y ← CONCAT rest; Some (x +:+ y)
  end.

Definition double_quote : string := String (ascii_of_nat 34) "".

(** [to_json(struct(...))] of text columns: NULL members are left out; a
    quote or backslash inside a value is escaped with a backslash. *)
Fixpoint json_escape (s : string) : string :=
  match s with
  | EmptyString => ""
  | String c rest =>
      if bool_decide (c = ascii_of_nat 34 ∨ c = ascii_of_nat 92)
      then String (ascii_of_nat 92) (String c (json_escape rest))
      else String c (json_escape rest)
  end.

Fixpoint join (sep : string) (parts : list string) : string :=
  match parts with
  | [] => ""
  | [p] => p
  | p :: rest => p +:+ sep +:+ join sep rest
  end.

Definition to_json (members : list (string * option string)) : string :=
  "{" +:+
  join ","
    (omap (λ m : string * option string,
       v ← m.2;
       Some (double_quote +:+ m.1 +:+ double_quote +:+ ":" +:+
             double_quote +:+ json_escape v +:+ double_quote)) members)
  +:+ "}".

(** ** The queries on the patient table *)

Section queries.
Context `{AiFunctions}.

(** The query of [fetch_quality_data]: one row per patient with the model's
    assessment, ordered by the score cast to an integer, descending. *)
Definition quality_prompt (t : SourceRecord) : option string :=
  CONCAT
    [Some "Analyze Australian healthcare record quality. Return quality_score (0-100), completeness (0-1), issues (array of strings). ";
     Some "Record: ";
     Some (to_json
       [("medical_record_num", medical_record_num t);
        ("patient_name", patient_name t);
        ("date_of_birth", date_of_birth t);
        ("medicare_number", medicare_number t);
        ("phone", phone t);
        ("email", email t);
        ("private_health_fund", private_health_fund t)])].

Definition patient_quality (model : string) (t : SourceRecord)
  : SourceRecord * option Json :=
  (t, ai_query_json model (quality_prompt t) QualityFormat).

Definition quality_order (r1 r2 : SourceRecord * option Json) : bool :=
  desc_int (cast_int (get_json_object r1.2 "$.quality_score"))
           (cast_int (get_json_object r2.2 "$.quality_score")).

Definition quality_row (r : SourceRecord * option Json) : QualityRow :=
  {| q_patient_id := patient_id r.1;
     q_patient_name := patient_name r.1;
     q_source_system := source_system r.1;
     quality_score := text_cell (get_json_object r.2 "$.quality_score");
     completeness := text_cell (get_json_object r.2 "$.completeness");
     issues := text_cell (get_json_object r.2 "$.issues") |}.

Definition quality_query (model : string) (table : list SourceRecord)
  : list QualityRow :=
  quality_row <$> order_by quality_order (patient_quality model <$> table).

(** The query of [fetch_duplicate_data]. *)
Definition similarity_prompt (t1 t2 : SourceRecord) : option string :=
  CONCAT
    [Some "Compare these two Australian patient records and determine if they represent the same person. ";
     Some "Return similarity_score (0-1), is_match (boolean), confidence (low/medium/high), match_reason. ";
     Some "Patient 1: {name: "; patient_name t1; Some ", dob: ";
     date_of_birth t1; Some ", medicare: "; medicare_number t1; Some "}. ";
     Some "Patient 2: {name: "; patient_name t2; Some ", dob: ";
     date_of_birth t2; Some ", medicare: "; medicare_number t2; Some "}."].

(** [FROM t1 CROSS JOIN t2 WHERE t1.patient_id < t2.patient_id]. *)
Definition cross_join_lt (table : list SourceRecord)
  : list (SourceRecord * SourceRecord) :=
  t1 ← table;
  t2 ← table;
  if bool_decide (patient_id t1 < patient_id t2)%Z then [(t1, t2)] else [].

Definition pairwise_similarity (model : string)
    (p : SourceRecord * SourceRecord) : DuplicateRow :=
  let similarity_result :=
    ai_query_json model (similarity_prompt p.1 p.2) SimilarityFormat in
  {| id1 := patient_id p.1; id2 := patient_id p.2;
     name1 := patient_name p.1; name2 := patient_name p.2;
     system1 := source_system p.1; system2 := source_system p.2;
     similarity_score := get_json_object similarity_result "$.similarity_score";
     is_match := get_json_object similarity_result "$.is_match";
     confidence := get_json_object similarity_result "$.confidence";
     match_reason := get_json_object similarity_result "$.match_reason" |}.

(** [text > 0.5]: the text is cast to a number; NULL is not greater. *)
Definition greater_than (threshold : Q) (text : option string) : bool :=
  match cast_double text with
  | Some q => Qltb threshold q
  | None => false
  end.

Definition similarity_order (r1 r2 : DuplicateRow) : bool :=
  desc_text (similarity_score r1) (similarity_score r2).

Definition duplicate_query (model : string) (table : list SourceRecord)
  : list DuplicateRow :=
  order_by similarity_order
    (filter (λ r, greater_than (1#2) (similarity_score r))
       (pairwise_similarity model <$> cross_join_lt table)).
End queries.

(** ** The database and the connection *)

(** The two tables the session's configuration addresses, and the counter of
    the golden table's identity column. *)
Record Database := {
  patients : list SourceRecord;
  golden_records : list GoldenRow;
  next_identity : Z
}.

(** Whether [sql.connect] and [cursor.execute] get through to the
    warehouse. *)
Inductive Connection :=
| Connected
| Unreachable (e : string).

Record QueryRun := {
  frame : DataFrame;
  database_after : Database;
  connection_error : option string
}.

(** [sql_query_with_service_principal] and [sql_query_with_user_token]: the
    statement's frame, or the demo patients when anything raises.  The
    statement is given by what the warehouse does with it. *)
Definition sql_query_with_service_principal (conn : Connection)
    (statement : Database → outcome (DataFrame * Database)) (db : Database)
  : QueryRun :=
  match conn with
  | Unreachable e =>
      {| frame := generate_demo_data; database_after := db;
         connection_error := Some ("Database connection error: " +:+ e) |}
  | Connected =>
      match statement db with
      | Returned (df, db') =>
          {| frame := df; database_after := db'; connection_error := None |}
      | Raised e =>
          {| frame := generate_demo_data; database_after := db;
             connection_error := Some ("Database connection error: " +:+ e) |}
      end
  end.

Definition sql_query_with_user_token (conn : Connection)
    (statement : Database → outcome (DataFrame * Database))
    (user_token : string) (db : Database) : QueryRun :=
  sql_query_with_service_principal conn statement db.

(** [if user_token: ... else: ...], as every caller has it. *)
Definition sql_query (conn : Connection)
    (statement : Database → outcome (DataFrame * Database))
    (user_token : option string) (db : Database) : QueryRun :=
  match user_token with
  | Some token =>
      if bool_decide (token = "")
      then sql_query_with_service_principal conn statement db
      else sql_query_with_user_token conn statement token db
  | None => sql_query_with_service_principal conn statement db
  end.

(** A SELECT leaves the database as it is. *)
Definition select (rows : Database → DataFrame) (db : Database)
  : outcome (DataFrame * Database) :=
  Returned (rows db, db).

(** [ORDER BY patient_id]. *)
Definition patient_order (t1 t2 : SourceRecord) : bool :=
  (patient_id t1 <=? patient_id t2)%Z.

Section fetch.
Context `{AiFunctions}.

(** The decorated functions: the wrapped body never raises, as
    [sql_query_*] catches every exception itself. *)
Definition fetch_patient_data_body (conn : Connection)
    (user_token : option string) (db : Database) (s : Session)
  : outcome DataFrame :=
  Returned (frame (sql_query conn
    (select (λ db,
       PatientFrame (order_by patient_order (patients db))))
    user_token db)).

Definition fetch_quality_data_body (conn : Connection)
    (user_token : option string) (db : Database) (s : Session)
  : outcome DataFrame :=
  Returned (frame (sql_query conn
    (select (λ db,
       QualityFrame (quality_query (get_ai_model_name s) (patients db))))
    user_token db)).

Definition fetch_duplicate_data_body (conn : Connection)
    (user_token : option string) (db : Database) (s : Session)
  : outcome DataFrame :=
  Returned (frame (sql_query conn
    (select (λ db,
       DuplicateFrame (duplicate_query (get_ai_model_name s) (patients db))))
    user_token db)).

Definition fetch_patient_data conn user_token db :=
  async_query_wrapper "fetch_patient_data"
    (fetch_patient_data_body conn user_token db).

Definition fetch_quality_data conn user_token db :=
  async_query_wrapper "fetch_quality_data"
    (fetch_quality_data_body conn user_token db).

Definition fetch_duplicate_data conn user_token db :=
  async_query_wrapper "fetch_duplicate_data"
    (fetch_duplicate_data_body conn user_token db).
End fetch.

(** ** Golden records *)

(** The sixteen merged columns, in the order of the INSERT (and of
    [field_mapping] in the review page). *)
Definition golden_fields : list string :=
  ["medical_record_num"; "patient_name"; "date_of_birth"; "medicare_number";
   "phone"; "email"; "address"; "suburb"; "state"; "postcode";
   "private_health_fund"; "membership_number"; "emergency_contact";
   "gp_name"; "blood_type"; "gender"].

(** The five columns of a stewardship decision. *)
Definition steward_columns : list string :=
  ["steward_status"; "steward_comments"; "approved_by"; "approved_at";
   "updated_at"].

(** The columns of the golden table. *)
Definition golden_columns : list string :=
  ["golden_record_id"; "patient_id_cluster"] ++ golden_fields ++
  ["confidence_score"; "source_patient_ids"; "steward_status";
   "steward_comments"; "approved_by"; "approved_at"; "created_at";
   "updated_at"].

Definition desc_time (k1 k2 : option Q) : bool :=
  match k1, k2 with
  | _, None => true
  | None, Some _ => false
  | Some a, Some b => Qle_bool b a
  end.

Definition created_at_of (row : GoldenRow) : option Q :=
  match row !! "created_at" with
  | Some (VTimestamp t) => Some t
  | _ => None
  end.

Definition golden_record_id (row : GoldenRow) : option Z :=
  match row !! "golden_record_id" with
  | Some (VInt n) => Some n
  | _ => None
  end.

Definition created_order (r1 r2 : GoldenRow) : bool :=
  desc_time (created_at_of r1) (created_at_of r2).

Section golden.
Context `{AiFunctions}.

(** [fetch_golden_records]: the golden table, newest first. *)
Definition fetch_golden_records_body (conn : Connection)
    (user_token : option string) (db : Database) (s : Session)
  : outcome DataFrame :=
  Returned (frame (sql_query conn
    (select (λ db, GoldenFrame (order_by created_order (golden_records db))))
    user_token db)).

Definition fetch_golden_records conn user_token db :=
  async_query_wrapper "fetch_golden_records"
    (fetch_golden_records_body conn user_token db).

(** The statement of [generate_golden_records]. *)
Definition same_person_prompt (t1 t2 : SourceRecord) : option string :=
  CONCAT
    [Some "Are these the same person? Return only true/false. Patient 1: ";
     patient_name t1; Some " "; date_of_birth t1; Some " ";
     medicare_number t1; Some ". Patient 2: ";
     patient_name t2; Some " "; date_of_birth t2; Some " ";
     medicare_number t2].

Definition patient_description (t : SourceRecord) : list (option string) :=
  [Some "mrn: "; medical_record_num t; Some ", name: "; patient_name t;
   Some ", dob: "; date_of_birth t; Some ", medicare: "; medicare_number t;
   Some ", phone: "; phone t; Some ", email: "; email t;
   Some ", address: "; address t; Some ", suburb: "; suburb t;
   Some ", state: "; state t; Some ", postcode: "; postcode t;
   Some ", fund: "; private_health_fund t;
   Some ", member: "; membership_number t;
   Some ", emergency: "; emergency_contact t; Some ", gp: "; gp_name t;
   Some ", blood: "; blood_type t; Some ", gender: "; gender t].

Definition golden_prompt (t1 t2 : SourceRecord) : option string :=
  CONCAT
    ([Some "Create the best golden record from these two Australian patient records. ";
      Some "Choose the most complete and accurate values. Return as JSON with all patient fields and confidence (0-1). ";
      Some "Patient 1: {"] ++ patient_description t1 ++
     [Some "}. "; Some "Patient 2: {"] ++ patient_description t2 ++
     [Some "}"]).

(** The rows of [high_confidence_matches]: the pairs with
    [t1.patient_id < t2.patient_id] that the model answers ['true'] for. *)
Definition same_person (model : string) (p : SourceRecord * SourceRecord)
  : bool :=
  bool_decide (ai_query model (same_person_prompt p.1 p.2) = Some "true").

Definition high_confidence_matches (model : string)
    (table : list SourceRecord) : list (SourceRecord * SourceRecord) :=
  filter (λ p, same_person model p) (cross_join_lt table).

Definition source_ids_of (p : SourceRecord * SourceRecord) : option string :=
  CONCAT [Some (pretty (patient_id p.1)); Some ",";
          Some (pretty (patient_id p.2))].

(** The row the INSERT writes for one pair; the columns it does not list
    are NULL, the identity column takes [identity]. *)
Definition golden_insert_row (model : string) (now : Q) (identity : Z)
    (p : SourceRecord * SourceRecord) : GoldenRow :=
  let golden_result :=
    ai_query_json model (golden_prompt p.1 p.2) GoldenRecordFormat in
  list_to_map
    ([("golden_record_id", VInt identity);
      ("patient_id_cluster", text_cell (source_ids_of p))] ++
     ((λ f, (f, text_cell (get_json_object golden_result ("$." +:+ f))))
        <$> golden_fields) ++
     [("confidence_score",
       from_option VDouble VNull
         (cast_double (get_json_object golden_result "$.confidence")));
      ("source_patient_ids", text_cell (source_ids_of p));
      ("steward_status", VText "pending");
      ("steward_comments", VNull);
      ("approved_by", VNull);
      ("approved_at", VNull);
      ("created_at", VTimestamp now);
      ("updated_at", VTimestamp now)]).

Definition insert_golden_records (model : string) (now : Q) (db : Database)
  : outcome (DataFrame * Database) :=
  let new_rows :=
    imap (λ i p, golden_insert_row model now (next_identity db + Z.of_nat i) p)
         (high_confidence_matches model (patients db)) in
  Returned (EmptyFrame,
            {| patients := patients db;
               golden_records := golden_records db ++ new_rows;
               next_identity := next_identity db + Z.of_nat (length new_rows) |}).

(** [generate_golden_records]: [True] unless the query function raises,
    which it does not. *)
Definition generate_golden_records (conn : Connection) (now : Q)
    (user_token : option string) (s : Session) (db : Database)
  : bool * QueryRun :=
  (true, sql_query conn (insert_golden_records (get_ai_model_name s) now)
           user_token db).
End golden.

(** ** The UPDATE statements, as text *)

(** The stewardship functions splice their arguments into the statement's
    text; what the warehouse does is decided by reading that text back. *)

Inductive Token :=
| TWord (w : string)
| TString (s : string)
| TSym (c : ascii).

Inductive LexMode :=
| Idle
| InWord (w : string)
| InString (acc : string)
| Escaped (acc : string)
| QuoteSeen (acc : string).

Definition quote_char : ascii := "'"%char.
Definition backslash_char : ascii := ascii_of_nat 92.

Definition is_space (c : ascii) : bool :=
  bool_decide (N_of_ascii c = 32 ∨ N_of_ascii c = 9 ∨ N_of_ascii c = 10
               ∨ N_of_ascii c = 13)%N.

Definition is_digit (c : ascii) : bool :=
  ((48 <=? N_of_ascii c) && (N_of_ascii c <=? 57))%N.

(** Letters, digits, underscore and the dot of qualified names. *)
Definition is_word_char (c : ascii) : bool :=
  (is_digit c
   || ((65 <=? N_of_ascii c) && (N_of_ascii c <=? 90))
   || ((97 <=? N_of_ascii c) && (N_of_ascii c <=? 122))
   || (N_of_ascii c =? 95) || (N_of_ascii c =? 46))%N.

Definition snoc (s : string) (c : ascii) : string := s +:+ String c "".

Definition lex_idle (toks : list Token) (c : ascii) : LexMode * list Token :=
  if bool_decide (c = quote_char) then (InString "", toks)
  else if is_space c then (Idle, toks)
  else if is_word_char c then (InWord (String c ""), toks)
  else (Idle, TSym c :: toks).

(** One character of the statement.  Inside a literal a doubled quote is a
    quote and a backslash takes the next character with it; the tokens are
    collected in reverse. *)
Definition lex_step (st : LexMode * list Token) (c : ascii)
  : LexMode * list Token :=
  let '(mode, toks) := st in
  match mode with
  | Idle => lex_idle toks c
  | InWord w =>
      if is_word_char c then (InWord (snoc w c), toks)
      else lex_idle (TWord w :: toks) c
  | InString acc =>
      if bool_decide (c = quote_char) then (QuoteSeen acc, toks)
      else if bool_decide (c = backslash_char) then (Escaped acc, toks)
      else (InString (snoc acc c), toks)
  | Escaped acc => (InString (snoc acc c), toks)
  | QuoteSeen acc =>
      if bool_decide (c = quote_char) then (InString (snoc acc c), toks)
      else lex_idle (TString acc :: toks) c
  end.

Fixpoint lex_run (text : string) (st : LexMode * list Token)
  : LexMode * list Token :=
  match text with
  | EmptyString => st
  | String c rest => lex_run rest (lex_step st c)
  end.

(** The tokens of a statement, or [None] for an unterminated literal. *)
Definition tokenize (text : string) : option (list Token) :=
  match lex_run text (Idle, []) with
  | (Idle, toks) => Some (reverse toks)
  | (InWord w, toks) => Some (reverse (TWord w :: toks))
  | (QuoteSeen acc, toks) => Some (reverse (TString acc :: toks))
  | (InString _, _) | (Escaped _, _) => None
  end.

Inductive SqlExpr :=
| ELiteral (s : string)
| ECurrentTimestamp
| ENull.

Record UpdateStatement := {
  target : string;
  assignments : list (string * SqlExpr);
  where_id : Z
}.

(** An unsigned integer literal. *)
Fixpoint parse_digits (acc : Z) (text : string) : option Z :=
  match text with
  | EmptyString => Some acc
  | String c rest =>
      if is_digit c
      then parse_digits (acc * 10 + (Z.of_N (N_of_ascii c) - 48)) rest
      else None
  end.

Definition parse_integer (text : string) : option Z :=
  match text with
  | EmptyString => None
  | _ => parse_digits 0 text
  end.

(** The parser of
    [UPDATE t SET c = v, ... WHERE golden_record_id = n], one token at a
    time; [done] holds the assignments read so far, the last one first. *)
Inductive ParseState :=
| ExpectUpdate
| ExpectTable
| ExpectSet (table : string)
| ExpectColumn (table : string) (done : list (string * SqlExpr))
| ExpectEquals (table : string) (done : list (string * SqlExpr)) (col : string)
| ExpectValue (table : string) (done : list (string * SqlExpr)) (col : string)
| ExpectOpen (table : string) (done : list (string * SqlExpr)) (col : string)
| ExpectClose (table : string) (done : list (string * SqlExpr)) (col : string)
| ExpectCommaOrWhere (table : string) (done : list (string * SqlExpr))
| ExpectWhereColumn (table : string) (done : list (string * SqlExpr))
| ExpectWhereEquals (table : string) (done : list (string * SqlExpr))
| ExpectWhereValue (table : string) (done : list (string * SqlExpr))
| Complete (stmt : UpdateStatement)
| SyntaxError.

Definition is_word (w : string) (tok : Token) : bool :=
  match tok with
  | TWord w' => bool_decide (w' = w)
  | _ => false
  end.

Definition is_sym (c : ascii) (tok : Token) : bool :=
  match tok with
  | TSym c' => bool_decide (c' = c)
  | _ => false
  end.

Definition parse_step (st : ParseState) (tok : Token) : ParseState :=
  match st with
  | ExpectUpdate => if is_word "UPDATE" tok then ExpectTable else SyntaxError
  | ExpectTable =>
      match tok with TWord t => ExpectSet t | _ => SyntaxError end
  | ExpectSet t => if is_word "SET" tok then ExpectColumn t [] else SyntaxError
  | ExpectColumn t done =>
      match tok with TWord c => ExpectEquals t done c | _ => SyntaxError end
  | ExpectEquals t done c =>
      if is_sym "="%char tok then ExpectValue t done c else SyntaxError
  | ExpectValue t done c =>
      match tok with
      | TString s => ExpectCommaOrWhere t ((c, ELiteral s) :: done)
      | TWord w =>
          if bool_decide (w = "NULL")
          then ExpectCommaOrWhere t ((c, ENull) :: done)
          else if bool_decide (w = "CURRENT_TIMESTAMP")
               then ExpectOpen t done c
               else SyntaxError
      | TSym _ => SyntaxError
      end
  | ExpectOpen t done c =>
      if is_sym "("%char tok then ExpectClose t done c else SyntaxError
  | ExpectClose t done c =>
      if is_sym ")"%char tok
      then ExpectCommaOrWhere t ((c, ECurrentTimestamp) :: done)
      else SyntaxError
  | ExpectCommaOrWhere t done =>
      if is_sym ","%char tok then ExpectColumn t done
      else if is_word "WHERE" tok then ExpectWhereColumn t done
      else SyntaxError
  | ExpectWhereColumn t done =>
      if is_word "golden_record_id" tok then ExpectWhereEquals t done
      else SyntaxError
  | ExpectWhereEquals t done =>
      if is_sym "="%char tok then ExpectWhereValue t done else SyntaxError
  | ExpectWhereValue t done =>
      match tok with
      | TWord w =>
          match parse_integer w with
          | Some n =>
              Complete {| target := t; assignments := reverse done;
                          where_id := n |}
          | None => SyntaxError
          end
      | _ => SyntaxError
      end
  | Complete _ => SyntaxError
  | SyntaxError => SyntaxError
  end.

Definition parse_update (text : string) : option UpdateStatement :=
  toks ← tokenize text;
  match foldl parse_step ExpectUpdate toks with
  | Complete stmt => Some stmt
  | _ => None
  end.

(** [str.split(sep)] for a one-character separator. *)
Fixpoint split_go (sep : ascii) (current : string) (text : string)
  : list string :=
  match text with
  | EmptyString => [current]
  | String c rest =>
      if bool_decide (c = sep) then current :: split_go sep "" rest
      else split_go sep (snoc current c) rest
  end.

Definition split (sep : ascii) (text : string) : list string :=
  split_go sep "" text.

Definition parse_signed (text : string) : option Z :=
  match text with
  | String c rest =>
      if bool_decide (c = "-"%char) then Z.opp <$> parse_integer rest
      else parse_integer text
  | EmptyString => None
  end.

(** A cast of plain decimal text ([digits] or [digits.digits]) to a number. *)
Definition parse_decimal (text : string) : option Q :=
  match split "."%char text with
  | [whole] => n ← parse_integer whole; Some (inject_Z n)
  | [whole; fraction] =>
      n ← parse_integer whole;
      f ← parse_integer fraction;
      let scale := (10 ^ Z.of_nat (String.length fraction))%Z in
      Some (Qmake (n * scale + f) (Z.to_pos scale))
  | _ => None
  end.

(** The types that the DDL of [create_golden_table_if_not_exists] gives the
    columns of the golden table. *)
Inductive ColumnType :=
| ColBigint
| ColString
| ColDate
| ColDouble
| ColTimestamp.

Definition column_type (col : string) : option ColumnType :=
  if bool_decide (col = "golden_record_id") then Some ColBigint
  else if bool_decide (col = "date_of_birth") then Some ColDate
  else if bool_decide (col = "confidence_score") then Some ColDouble
  else if bool_decide (col ∈ ["approved_at"; "created_at"; "updated_at"])
       then Some ColTimestamp
       else if bool_decide (col ∈ golden_columns) then Some ColString
            else None.

Definition days_in_month (year month : Z) : Z :=
  if bool_decide (month = 2)%Z
  then if bool_decide ((year `mod` 4 = 0 ∧ year `mod` 100 ≠ 0)
                       ∨ year `mod` 400 = 0)%Z
       then 29 else 28
  else if bool_decide (month ∈ [4; 6; 9; 11]%Z) then 30 else 31.

(** A date written [yyyy-mm-dd], the form in which every warehouse reads
    one; year, month and day of a day of the calendar. *)
Definition parse_date (text : string) : option (Z * Z * Z) :=
  if bool_decide (String.length text = 10%nat
                  ∧ String.substring 4 1 text = "-"
                  ∧ String.substring 7 1 text = "-")
  then
    year ← parse_integer (String.substring 0 4 text);
    month ← parse_integer (String.substring 5 2 text);
    day ← parse_integer (String.substring 8 2 text);
    if bool_decide (1 ≤ year ∧ 1 ≤ month ≤ 12
                    ∧ 1 ≤ day ≤ days_in_month year month)%Z
    then Some (year, month, day)
    else None
  else None.

(** The days from 1970-01-01 to a day of the calendar. *)
Definition days_from_civil (year month day : Z) : Z :=
  let y := if bool_decide (month ≤ 2)%Z then (year - 1)%Z else year in
  let era := (y `div` 400)%Z in
  let year_of_era := (y - era * 400)%Z in
  let march_based := ((month + 9) `mod` 12)%Z in
  let day_of_year := ((153 * march_based + 2) `div` 5 + day - 1)%Z in
  let day_of_era :=
    (year_of_era * 365 + year_of_era `div` 4 - year_of_era `div` 100
     + day_of_year)%Z in
  (era * 146097 + day_of_era - 719468)%Z.

(** The cell a column takes for the value assigned to it, [None] when the
    value cannot be cast to the column's type and the statement fails (the
    casts of a store are strict).  A text column takes every literal as it
    is.  A typed column takes a literal that reads as a value of its type;
    the model reads the plain forms: [yyyy-mm-dd] for a date (its cell holds
    that text) and for a timestamp (midnight of that day, UTC), decimal
    digits for a number.  [CURRENT_TIMESTAMP()] in a text or date column is
    kept as the timestamp it is cast from. *)
Definition cast_literal (ty : ColumnType) (text : string) : option Cell :=
  match ty with
  | ColString => Some (VText text)
  | ColDate => _ ← parse_date text; Some (VText text)
  | ColTimestamp =>
      date ← parse_date text;
      Some (VTimestamp
              (inject_Z (86400 * days_from_civil date.1.1 date.1.2 date.2)))
  | ColDouble => VDouble <$> parse_decimal text
  | ColBigint => VInt <$> parse_signed text
  end.

Definition store_cell (now : Q) (a : string * SqlExpr)
  : option (string * Cell) :=
  ty ← column_type a.1;
  cell ← match a.2 with
         | ENull => Some VNull
         | ELiteral text => cast_literal ty text
         | ECurrentTimestamp =>
             match ty with
             | ColTimestamp | ColString | ColDate => Some (VTimestamp now)
             | ColDouble | ColBigint => None
             end
         end;
  Some (a.1, cell).

Definition apply_cells (cells : list (string * Cell)) (row : GoldenRow)
  : GoldenRow :=
  foldl (λ r c, <[c.1 := c.2]> r) row cells.

(** What the warehouse does with the text of an UPDATE when its golden
    table is known to it as [golden_ref]: a statement that does not parse,
    is on another table, names a column the table lacks or the identity
    column, sets a column twice, or assigns a value that cannot be cast to
    the column's type is refused; otherwise every row with the given id
    gets the assignments. *)
Definition execute_update (golden_ref : string) (now : Q) (text : string)
    (db : Database) : outcome (DataFrame * Database) :=
  match parse_update text with
  | None => Raised "PARSE_SYNTAX_ERROR"
  | Some stmt =>
      if bool_decide (target stmt = golden_ref)
      then
        if bool_decide
             (Forall (λ a, a.1 ∈ golden_columns ∧ a.1 ≠ "golden_record_id")
                     (assignments stmt)
              ∧ NoDup (assignments stmt).*1)
        then
          match mapM (store_cell now) (assignments stmt) with
          | Some cells =>
              Returned
                (EmptyFrame,
                 {| patients := patients db;
                    golden_records :=
                      (λ row,
                         if bool_decide
                              (golden_record_id row = Some (where_id stmt))
                         then apply_cells cells row
                         else row) <$> golden_records db;
                    next_identity := next_identity db |})
          | None => Raised "CAST_INVALID_INPUT"
          end
        else Raised "UNRESOLVED_OR_CONFLICTING_COLUMN"
      else Raised "TABLE_OR_VIEW_NOT_FOUND"
  end.

(** ** Stewardship updates *)

Definition newline : string := String (ascii_of_nat 10) "".
Definition indent8 : string := newline +:+ "        ".
Definition indent12 : string := newline +:+ "            ".

(** The five assignments both UPDATE statements end their SET clause with,
    and the WHERE clause. *)
Definition steward_assignments_text (status comments approved_by : string)
    (record_id : Z) : string :=
  "steward_status = '" +:+ status +:+ "'," +:+ indent12 +:+
  "steward_comments = '" +:+ comments +:+ "'," +:+ indent12 +:+
  "approved_by = '" +:+ approved_by +:+ "'," +:+ indent12 +:+
  "approved_at = CURRENT_TIMESTAMP()," +:+ indent12 +:+
  "updated_at = CURRENT_TIMESTAMP()" +:+ indent8 +:+
  "WHERE golden_record_id = " +:+ pretty record_id +:+ newline +:+ "    ".

Definition update_status_text (table_ref status comments approved_by : string)
    (record_id : Z) : string :=
  indent8 +:+ "UPDATE " +:+ table_ref +:+ indent8 +:+ "SET " +:+
  steward_assignments_text status comments approved_by record_id.

(** [update_golden_record_status]: [True] unless the query function raises,
    which it does not. *)
Definition update_golden_record_status (conn : Connection) (now : Q)
    (s : Session) (record_id : Z) (status comments approved_by : string)
    (user_token : option string) (db : Database) : bool * QueryRun :=
  let table_ref := get_table_reference "golden" s in
  let query := update_status_text table_ref status comments approved_by record_id in
  (true, sql_query conn (execute_update table_ref now query) user_token db).

(** [str.replace("'", "''")]. *)
Fixpoint escape_quotes (value : string) : string :=
  match value with
  | EmptyString => ""
  | String c rest =>
      if bool_decide (c = quote_char)
      then String c (String c (escape_quotes rest))
      else String c (escape_quotes rest)
  end.

Definition set_clause_of (item : string * option string) : string :=
  match item.2 with
  | Some value => item.1 +:+ " = '" +:+ escape_quotes value +:+ "'"
  | None => item.1 +:+ " = NULL"
  end.

Definition update_edits_text (table_ref : string)
    (updated_data : list (string * option string))
    (status comments approved_by : string) (record_id : Z) : string :=
  indent8 +:+ "UPDATE " +:+ table_ref +:+ indent8 +:+ "SET " +:+
  join ", " (set_clause_of <$> updated_data) +:+ "," +:+ indent12 +:+
  steward_assignments_text status comments approved_by record_id.

(** [update_golden_record_with_steward_edits]; [updated_data] is the dict's
    items in insertion order. *)
Definition update_golden_record_with_steward_edits (conn : Connection)
    (now : Q) (s : Session) (record_id : Z)
    (updated_data : list (string * option string))
    (status comments approved_by : string)
    (user_token : option string) (db : Database) : bool * QueryRun :=
  let table_ref := get_table_reference "golden" s in
  let query :=
    update_edits_text table_ref updated_data status comments approved_by
      record_id in
  (true, sql_query conn (execute_update table_ref now query) user_token db).

(** [fetch_source_patient_records]: the patients whose id is in the
    comma-separated list, by id. *)
Definition fetch_source_patient_records (conn : Connection)
    (source_patient_ids : string) (user_token : option string)
    (db : Database) : DataFrame :=
  let patient_ids := split ","%char source_patient_ids in
  frame (sql_query conn
    (λ db,
       match mapM parse_signed patient_ids with
       | Some ids =>
           Returned
             (PatientFrame
                (order_by patient_order
                   (filter (λ t, patient_id t ∈ ids) (patients db))), db)
       | None => Raised "PARSE_SYNTAX_ERROR"
       end)
    user_token db).

(** ** The review page *)

Inductive Click :=
| ClickApprove
| ClickReject.

(** What the page shows for a click (the texts without their pictograms). *)
Inductive Shown :=
| StSuccess (msg : string)
| StError (msg : string)
| StWarning (msg : string)
| NothingShown.

Record UiRun := {
  shown : Shown;
  ui_database : Database
}.

(** The record the form submits: a text area left empty stands for NULL. *)
Definition updated_golden_record (edited_value : string → string)
  : list (string * option string) :=
  (λ field_key,
     (field_key,
      if bool_decide (edited_value field_key = "") then None
      else Some (edited_value field_key))) <$> golden_fields.

(** The two buttons of [show_enhanced_stewardship_interface] for a record
    with id [record_id]. *)
Definition decision_buttons (conn : Connection) (now : Q) (s : Session)
    (record_id : Z) (edited_value : string → string)
    (comments steward_name : string) (user_token : option string)
    (click : Click) (db : Database) : UiRun :=
  match click with
  | ClickApprove =>
      let '(success, run) :=
        update_golden_record_with_steward_edits conn now s record_id
          (updated_golden_record edited_value) "approved"
          (if bool_decide (comments = "") then "Approved with steward edits"
           else comments)
          steward_name user_token db in
      {| shown := if success
                  then StSuccess "Golden record approved with your edits!"
                  else StError "Failed to approve record. Please try again.";
         ui_database := database_after run |}
  | ClickReject =>
      if bool_decide (comments = "")
      then {| shown := StError "Please provide comments when rejecting a record.";
              ui_database := db |}
      else
        let '(success, run) :=
          update_golden_record_status conn now s record_id "rejected"
            comments steward_name user_token db in
        {| shown := if success then StSuccess "Record rejected!"
                    else StError "Failed to reject record. Please try again.";
           ui_database := database_after run |}
  end.

Definition frame_length (df : DataFrame) : nat :=
  match df with
  | PatientFrame rows => length rows
  | QualityFrame rows => length rows
  | DuplicateFrame rows => length rows
  | GoldenFrame rows => length rows
  | EmptyFrame => 0%nat
  end.

(** [show_enhanced_stewardship_interface]: the buttons are there when two
    source records could be fetched. *)
Definition show_enhanced_stewardship_interface (conn_fetch conn : Connection)
    (now : Q) (s : Session) (record : GoldenRow)
    (edited_value : string → string) (comments steward_name : string)
    (user_token : option string) (click : Click) (db : Database) : UiRun :=
  match record !! "source_patient_ids", golden_record_id record with
  | Some (VText source_patient_ids), Some record_id =>
      let source_records :=
        fetch_source_patient_records conn_fetch source_patient_ids user_token db in
      if bool_decide (frame_length source_records = 0%nat)
      then {| shown := StError "Could not fetch source patient records for comparison.";
              ui_database := db |}
      else if bool_decide (2 ≤ frame_length source_records)%nat
           then decision_buttons conn now s record_id edited_value comments
                  steward_name user_token click db
           else {| shown := StWarning "Not enough source records found for comparison.";
                   ui_database := db |}
  | _, _ => {| shown := NothingShown; ui_database := db |}
  end.

(** The part of [show_data_stewardship] for one row of the frame it
    fetched: only a row shown as pending gets the interface. *)
Definition show_data_stewardship_record (conn_fetch conn : Connection)
    (now : Q) (s : Session) (record : GoldenRow)
    (edited_value : string → string) (comments steward_name : string)
    (user_token : option string) (click : Click) (db : Database) : UiRun :=
  match record !! "steward_status" with
  | Some (VText status) =>
      if bool_decide (status = "pending")
      then show_enhanced_stewardship_interface conn_fetch conn now s record
             edited_value comments steward_name user_token click db
      else {| shown := NothingShown; ui_database := db |}
  | _ => {| shown := NothingShown; ui_database := db |}
  end.

(** ** Concrete warehouses and tables for the examples *)

(** A model that answers by the prompt alone. *)
Definition scripted_model (answer : string → option string)
    (answer_json : string → option Json) : AiFunctions :=
  {| ai_query := λ _ prompt, prompt ≫= answer;
     ai_query_json := λ _ prompt _, prompt ≫= answer_json;
     cast_double := λ text, text ≫= parse_decimal;
     cast_int := λ text, text ≫= parse_signed |}.

Definition patient (id : Z) (name dob medicare : string) : SourceRecord :=
  {| patient_id := id;
     medical_record_num := None;
     patient_name := Some name;
     date_of_birth := Some dob;
     medicare_number := Some medicare;
     phone := None; email := None; address := None; suburb := None;
     state := None; postcode := None; private_health_fund := None;
     membership_number := None; emergency_contact := None; gp_name := None;
     blood_type := None; gender := None; source_system := None |}.

Definition john : SourceRecord := patient 1 "John Smith" "1980-01-01" "2428912345678".
Definition j_smith : SourceRecord := patient 2 "J. Smith" "1980-01-01" "2428912345678".
Definition jon : SourceRecord := patient 3 "Jon Smythe" "1980-01-01" "2428912345678".

(** ** Properties the theorems speak of *)

(** A list in which every row may stand before every later row. *)
Definition ordered {A} (before : A → A → bool) (l : list A) : Prop :=
  StronglySorted (λ x y, before x y) l.

(** The functions [async_query_wrapper] decorates, and the table each of
    them reads. *)
Definition decorated_functions : list string :=
  ["fetch_patient_data"; "fetch_quality_data"; "fetch_duplicate_data";
   "fetch_golden_records"].

Definition target_table (func_name : string) (s : Session) : string :=
  if bool_decide (func_name = "fetch_golden_records")
  then get_table_reference "golden" s
  else get_table_reference "main" s.

Definition with_config (config : DbConfig) (s : Session) : Session :=
  {| db_config := config;
     model_name := model_name s;
     data_cache := data_cache s;
     cache_timestamps := cache_timestamps s |}.

Definition cell_text (cell : Cell) : option string :=
  match cell with
  | VText s => Some s
  | _ => None
  end.

(** Two rows of the duplicate frame on the same two patients, in either
    order. *)
Definition same_unordered_pair (r r' : DuplicateRow) : Prop :=
  (id1 r = id1 r' ∧ id2 r = id2 r') ∨ (id1 r = id2 r' ∧ id2 r = id1 r').

(** Rows with equal score stand in ascending order of [(id1, id2)]. *)
Definition ties_broken_by_ids (rows : list DuplicateRow) : Prop :=
  ∀ (i j : nat) r r',
    (i < j)%nat → rows !! i = Some r → rows !! j = Some r' →
    similarity_score r = similarity_score r' →
    (id1 r < id1 r' ∨ (id1 r = id1 r' ∧ id2 r ≤ id2 r'))%Z.

Fixpoint string_forall (P : ascii → bool) (s : string) : bool :=
  match s with
  | EmptyString => true
  | String c rest => P c && string_forall P rest
  end.

(** A model that gives every pair the similarity 0.9 and answers ['true']
    to every same-person question. *)
Definition agreeable_model : AiFunctions :=
  scripted_model (λ _, Some "true")
    (λ _, Some ({["similarity_score" := "0.9"]} : Json)).

(** A model that scores the quality of J. Smith's record 90 and of every
    other record 50. *)
Definition grading_model : AiFunctions :=
  scripted_model (λ _, Some "true")
    (λ prompt,
       if contains "J. Smith" prompt
       then Some ({["quality_score" := "90"]} : Json)
       else Some ({["quality_score" := "50"]} : Json)).

(** A model that answers off the 0-1 scale: similarity 10 for a pair with
    Jon Smythe in it, 9 for every other pair. *)
Definition off_scale_model : AiFunctions :=
  scripted_model (λ _, Some "true")
    (λ prompt,
       if contains "Jon Smythe" prompt
       then Some ({["similarity_score" := "10"]} : Json)
       else Some ({["similarity_score" := "9"]} : Json)).

(** Text without a quote or a backslash: spliced between two quotes it is
    read back as it is. *)
Definition plain (text : string) : bool :=
  string_forall
    (λ c, negb (bool_decide (c = quote_char))
          && negb (bool_decide (c = backslash_char))) text.

Definition no_backslash (text : string) : bool :=
  string_forall (λ c, negb (bool_decide (c = backslash_char))) text.

(** A name or number: word characters only, and at least one. *)
Definition word_text (text : string) : bool :=
  string_forall is_word_char text && negb (bool_decide (text = "")).

(** A golden row after a stewardship decision. *)
Definition decided (now : Q) (status comments approved_by : string)
    (row : GoldenRow) : GoldenRow :=
  <["updated_at" := VTimestamp now]>
    (<["approved_at" := VTimestamp now]>
       (<["approved_by" := VText approved_by]>
          (<["steward_comments" := VText comments]>
             (<["steward_status" := VText status]> row)))).

(** The edits of a review form as assignments. *)
Definition edit_assignment (item : string * option string) : string * SqlExpr :=
  (item.1, match item.2 with Some value => ELiteral value | None => ENull end).

(** The cells the edits of a review form leave in a row. *)
Definition edit_cell (item : string * option string) : string * Cell :=
  (item.1, match item.2 with Some value => VText value | None => VNull end).

Definition update_rows (record_id : Z) (change : GoldenRow → GoldenRow)
    (db : Database) : Database :=
  {| patients := patients db;
     golden_records :=
       (λ row, if bool_decide (golden_record_id row = Some record_id)
               then change row else row) <$> golden_records db;
     next_identity := next_identity db |}.

(** A golden table with one record, pending or already approved. *)
Definition golden_row_of (id : Z) (name status : string) : GoldenRow :=
  list_to_map
    [("golden_record_id", VInt id); ("patient_id_cluster", VText "1,2");
     ("patient_name", VText name); ("source_patient_ids", VText "1,2");
     ("steward_status", VText status); ("steward_comments", VNull);
     ("approved_by", VNull); ("approved_at", VNull);
     ("created_at", VTimestamp 0); ("updated_at", VTimestamp 0)].

Definition one_record_db (status : string) : Database :=
  {| patients := [john; j_smith];
     golden_records := [golden_row_of 1 "John Smith" status];
     next_identity := 2 |}.

(** The tokens of one edit in the SET clause, with the comma after it. *)
Definition edit_tokens (item : string * option string) : list Token :=
  [TWord item.1; TSym "="%char;
   match item.2 with Some value => TString value | None => TWord "NULL" end;
   TSym ","%char].

(** ** The pages *)

(** The pages of the sidebar's selectbox. *)
Inductive Page :=
| Overview
| PatientRecords
| DuplicateDetection
| DataQuality
| DataStewardship
| DatabaseConfig
| Settings.

(** [page in ["Data Quality", "Overview"]]. *)
Definition needs_quality (page : Page) : bool :=
  match page with
  | DataQuality | Overview => true
  | _ => false
  end.

(** [page in ["Duplicate Detection", "Overview", "Data Stewardship"]]. *)
Definition needs_duplicates (page : Page) : bool :=
  match page with
  | DuplicateDetection | Overview | DataStewardship => true
  | _ => false
  end.

(** The clock readings of the three decorated calls of one run of [main]. *)
Record LoadClock := {
  patient_read : Q;
  patient_store : Q;
  quality_read : Q;
  quality_store : Q;
  duplicate_read : Q;
  duplicate_store : Q
}.

(** What the loading part of one run of [main] hands to the page: the three
    frames, the configuration and cache dictionaries it leaves, and which of
    the three decorated loaders ran their wrapped function.  What the page
    does after that is not part of it. *)
Record PageData := {
  patient_data : DataFrame;
  quality_data : DataFrame;
  duplicate_data : DataFrame;
  session_loaded : Session;
  loaders_run : list string
}.

Definition ran (name : string) (run : WrapperRun) : list string :=
  if func_invoked run then [name] else [].

Section main.
Context `{AiFunctions}.

(** The loading part of [main]: the patients always, the quality frame and
    the duplicate frame when the page needs them (the demo quality frame
    and an empty frame otherwise), and the demo frames when a call raises. *)
Definition load_page_data (conn : Connection) (user_token : option string)
    (db : Database) (page : Page) (clock : LoadClock) (s : Session)
  : PageData :=
  let patient_run :=
    fetch_patient_data conn user_token db
      (patient_read clock) (patient_store clock) s in
  let s1 := session_after patient_run in
  let quality_run :=
    if needs_quality page
    then fetch_quality_data conn user_token db
           (quality_read clock) (quality_store clock) s1
    else {| returned := Returned generate_demo_quality_data;
            session_after := s1; func_invoked := false;
            error_shown := None |} in
  let s2 := session_after quality_run in
  let duplicate_run :=
    if needs_duplicates page
    then fetch_duplicate_data conn user_token db
           (duplicate_read clock) (duplicate_store clock) s2
    else {| returned := Returned EmptyFrame;
            session_after := s2; func_invoked := false;
            error_shown := None |} in
  let s3 := session_after duplicate_run in
  let invoked :=
    (ran "fetch_patient_data" patient_run
     ++ ran "fetch_quality_data" quality_run
     ++ ran "fetch_duplicate_data" duplicate_run)%list in
  match returned patient_run, returned quality_run, returned duplicate_run with
  | Returned patients_frame, Returned quality_frame, Returned duplicate_frame =>
      {| patient_data := patients_frame; quality_data := quality_frame;
         duplicate_data := duplicate_frame; session_loaded := s3;
         loaders_run := invoked |}
  | _, _, _ =>
      {| patient_data := generate_demo_data;
         quality_data := generate_demo_quality_data;
         duplicate_data := EmptyFrame; session_loaded := s3;
         loaders_run := invoked |}
  end.
End main.

(** The sidebar's count of cached datasets: the keys of the three frames of
    [main], each checked at its own clock reading. *)
Definition cached_count (now1 now2 now3 : Q) (s : Session) : nat :=
  length
    (filter (λ valid : bool, valid = true)
       [is_cache_valid now1 (cache_key_of "fetch_patient_data" s) s;
        is_cache_valid now2 (cache_key_of "fetch_quality_data" s) s;
        is_cache_valid now3 (cache_key_of "fetch_duplicate_data" s) s]).

(** [golden_records[golden_records['steward_status'] == status]]. *)
Definition has_status (status : string) (row : GoldenRow) : bool :=
  match row !! "steward_status" with
  | Some (VText text) => bool_decide (text = status)
  | _ => false
  end.

Definition apply_status_filter (status_filter : string)
    (rows : list GoldenRow) : list GoldenRow :=
  if bool_decide (status_filter = "All") then rows
  else filter (λ row, has_status status_filter row = true) rows.

(** The four metrics of [show_data_stewardship], counted on the filtered
    frame. *)
Record StewardshipMetrics := {
  total_records : nat;
  pending_count : nat;
  approved_count : nat;
  rejected_count : nat
}.

Definition count_status (status : string) (rows : list GoldenRow) : nat :=
  length (filter (λ row, has_status status row = true) rows).

Definition stewardship_metrics (status_filter : string)
    (rows : list GoldenRow) : StewardshipMetrics :=
  let golden_records := apply_status_filter status_filter rows in
  {| total_records := length golden_records;
     pending_count := count_status "pending" golden_records;
     approved_count := count_status "approved" golden_records;
     rejected_count := count_status "rejected" golden_records |}.

(** [list.index]: the first position of [x], [None] where Python raises
    ValueError. *)
Fixpoint list_index (x : string) (l : list string) : option nat :=
  match l with
  | [] => None
  | y :: l' => if bool_decide (y = x) then Some 0%nat else S <$> list_index x l'
  end.

(** The model selectbox of [show_database_config]: the five listed models,
    and the session's model after them when it is not one of the five. *)
Definition listed_models : list string :=
  ["databricks-meta-llama-3-3-70b-instruct"; "databricks-gpt-oss-120b";
   "databricks-gpt-oss-20b"; "databricks-claude-3-7-sonnet";
   "databricks-claude-sonnet-4"].

Definition model_options (current_model : string) : list string :=
  if bool_decide (current_model ∈ listed_models) then listed_models
  else (listed_models ++ [current_model])%list.

Definition model_index (current_model : string) : option nat :=
  list_index current_model (model_options current_model).

(** The two forms of [show_database_config]: each replaces its part of the
    session state and leaves the cache dictionaries alone. *)
Definition save_db_config (config : DbConfig) (s : Session) : Session :=
  {| db_config := config;
     model_name := model_name s;
     data_cache := data_cache s;
     cache_timestamps := cache_timestamps s |}.

Definition save_ai_config (model : string) (s : Session) : Session :=
  {| db_config := db_config s;
     model_name := model;
     data_cache := data_cache s;
     cache_timestamps := cache_timestamps s |}.

(** ** Further properties the theorems speak of *)

(** The ids of the golden table are distinct and below the identity
    counter. *)
Definition identities_fresh (db : Database) : Prop :=
  Forall (λ row, ∃ n, golden_record_id row = Some n ∧ (n < next_identity db)%Z)
    (golden_records db)
  ∧ NoDup (golden_record_id <$> golden_records db).

(** The text fields of a patient that the comparison prompts splice in. *)
Definition compared_fields (t : SourceRecord) : list (option string) :=
  [patient_name t; date_of_birth t; medicare_number t].

(** The sixteen fields the prompt for the golden record splices in. *)
Definition merged_fields (t : SourceRecord) : list (option string) :=
  [medical_record_num t; patient_name t; date_of_birth t; medicare_number t;
   phone t; email t; address t; suburb t; state t; postcode t;
   private_health_fund t; membership_number t; emergency_contact t;
   gp_name t; blood_type t; gender t].

(** ** Two callers at once *)

(** The part of [wrapper] that follows the reading of the cache;
    [cached_data] is what [get_cached_data] has returned. *)
Definition finish_call (func_name : string)
    (func : Session → outcome DataFrame) (cached_data : option DataFrame)
    (now_store : Q) (s : Session) : WrapperRun :=
  match cached_data with
  | Some cached =>
      {| returned := Returned cached; session_after := s;
         func_invoked := false; error_shown := None |}
  | None =>
      match func s with
      | Returned result =>
          {| returned := Returned result;
             session_after :=
               set_cached_data now_store (cache_key_of func_name s) result s;
             func_invoked := true; error_shown := None |}
      | Raised e =>
          {| returned := Returned (fallback_data func_name);
             session_after := s;
             func_invoked := true;
             error_shown := Some ("Query failed: " +:+ e) |}
      end
  end.

(** Two calls of one decorated function on one session state that overlap:
    both callers read the cache before either has stored a result; the
    first caller then runs and stores, and after it the second, on the
    state the first has left. *)
Definition overlapping_calls (func_name : string)
    (func_a func_b : Session → outcome DataFrame)
    (read_a read_b store_a store_b : Q) (s : Session)
  : WrapperRun * WrapperRun :=
  let cache_key := cache_key_of func_name s in
  let cached_a := get_cached_data read_a cache_key s in
  let cached_b := get_cached_data read_b cache_key s in
  let run_a := finish_call func_name func_a cached_a store_a s in
  let run_b :=
    finish_call func_name func_b cached_b store_b (session_after run_a) in
  (run_a, run_b).

(** * Theorems *)

(** ** Sorting *)

Section order_by_facts.
Context {A : Type} (before : A → A → bool).
Hypothesis before_total : ∀ x y, before x y = true ∨ before y x = true.
Hypothesis before_trans :
  ∀ x y z, before x y = true → before y z = true → before x z = true.

Lemma insert_by_perm x l : insert_by before x l ≡ₚ x :: l.
Proof.
  induction l as [|y l IH]; simpl; [done|].
  destruct (before x y); [done|].
  rewrite IH. apply Permutation_swap.
Qed.

Lemma order_by_perm l : order_by before l ≡ₚ l.
Proof.
  induction l as [|x l IH]; simpl; [done|].
  by rewrite insert_by_perm, IH.
Qed.

Lemma insert_by_ordered x l :
  ordered before l → ordered before (insert_by before x l).
Proof using before_total before_trans.
  unfold ordered. induction l as [|y l IH]; simpl; intros Hl.
  - repeat constructor.
  - apply StronglySorted_inv in Hl as [Hl Hy].
    destruct (before x y) eqn:Hxy.
    + constructor; [by constructor|].
      constructor; [by rewrite Hxy|].
      eapply Forall_impl; [exact Hy|]. intros z Hz. simpl in *.
      apply Is_true_true. apply Is_true_true in Hz. eauto.
    + constructor; [by apply IH|].
      rewrite insert_by_perm. constructor; [|done].
      destruct (before_total x y) as [Hc|Hc]; [congruence|by rewrite Hc].
Qed.

Lemma order_by_ordered l : ordered before (order_by before l).
Proof using before_total before_trans.
  induction l as [|x l IH]; simpl; [constructor|].
  by apply insert_by_ordered.
Qed.
End order_by_facts.

Lemma desc_text_total k1 k2 : desc_text k1 k2 = true ∨ desc_text k2 k1 = true.
Proof.
  destruct k1 as [a|], k2 as [b|]; simpl; auto.
  destruct (String.leb_total b a); auto.
Qed.

Lemma desc_text_trans k1 k2 k3 :
  desc_text k1 k2 = true → desc_text k2 k3 = true → desc_text k1 k3 = true.
Proof.
  destruct k1 as [a|], k2 as [b|], k3 as [c|]; simpl; try done.
  intros H1%Is_true_true H2%Is_true_true. apply Is_true_true.
  change (String.le c a). by trans b.
Qed.

Lemma desc_int_total k1 k2 : desc_int k1 k2 = true ∨ desc_int k2 k1 = true.
Proof. destruct k1, k2; simpl; auto. lia. Qed.

Lemma desc_int_trans k1 k2 k3 :
  desc_int k1 k2 = true → desc_int k2 k3 = true → desc_int k1 k3 = true.
Proof. destruct k1, k2, k3; simpl; try done. lia. Qed.

(** ** The cache *)

Lemma Qltb_ge x y : (y <= x)%Q → Qltb x y = false.
Proof. intros Hle. unfold Qltb. by apply Qle_bool_iff in Hle as ->. Qed.

Lemma Qltb_lt x y : (x < y)%Q → Qltb x y = true.
Proof.
  intros Hlt. unfold Qltb. destruct (Qle_bool y x) eqn:Hle; [|done].
  apply Qle_bool_iff in Hle. by apply Qle_not_lt in Hle.
Qed.

Lemma get_cached_data_expired now cache_key s cache_time :
  cache_timestamps s !! cache_key = Some cache_time →
  (CACHE_EXPIRY <= now - cache_time)%Q →
  get_cached_data now cache_key s = None.
Proof.
  intros Ht Hage. unfold get_cached_data, is_cache_valid.
  by rewrite Ht, Qltb_ge.
Qed.

Lemma get_cached_data_fresh now cache_key s cache_time data :
  cache_timestamps s !! cache_key = Some cache_time →
  data_cache s !! cache_key = Some data →
  (now - cache_time < CACHE_EXPIRY)%Q →
  get_cached_data now cache_key s = Some data.
Proof.
  intros Ht Hd Hage. unfold get_cached_data, is_cache_valid.
  by rewrite Ht, Qltb_lt.
Qed.

(** C5. An entry whose age has reached [CACHE_EXPIRY] (300 seconds) is not
    returned by a cache read, and a decorated call then runs the wrapped
    function; after [clear_cache] every key is invalid and every read
    returns nothing. *)
Theorem expired_or_cleared_entries_are_misses :
  (∀ now cache_key s cache_time,
     cache_timestamps s !! cache_key = Some cache_time →
     (CACHE_EXPIRY <= now - cache_time)%Q →
     get_cached_data now cache_key s = None)
  ∧ (∀ func_name func now_read now_store s cache_time,
       cache_timestamps s !! cache_key_of func_name s = Some cache_time →
       (CACHE_EXPIRY <= now_read - cache_time)%Q →
       func_invoked (async_query_wrapper func_name func now_read now_store s)
       = true)
  ∧ (∀ now cache_key s,
       is_cache_valid now cache_key (clear_cache s) = false
       ∧ get_cached_data now cache_key (clear_cache s) = None).
Proof.
  split; [|split].
  - apply get_cached_data_expired.
  - intros func_name func now_read now_store s cache_time Ht Hage.
    unfold async_query_wrapper.
    rewrite (get_cached_data_expired _ _ _ _ Ht Hage).
    by destruct (func s).
  - intros now cache_key s. unfold get_cached_data, is_cache_valid. simpl.
    by rewrite lookup_empty.
Qed.

Lemma expired_or_cleared_entries_are_misses_witness :
  get_cached_data 300 "k" (set_cached_data 0 "k" EmptyFrame initial_session)
  = None.
Proof.
  apply (proj1 expired_or_cleared_entries_are_misses 300%Q "k" _ 0%Q).
  - apply lookup_insert_eq.
  - vm_compute. discriminate.
Defined.

(** C6, as the code has it.  When the wrapped function raises, the session
    and with it both cache dictionaries are left exactly as they were, so
    nothing is stored under the key; the call itself does not raise: it
    shows the error and returns the fallback frame chosen by the function's
    name. *)
Theorem failed_query_keeps_cache_and_falls_back
    func_name func now_read now_store s e :
  func s = Raised e →
  session_after (async_query_wrapper func_name func now_read now_store s) = s
  ∧ (get_cached_data now_read (cache_key_of func_name s) s = None →
     returned (async_query_wrapper func_name func now_read now_store s)
     = Returned (fallback_data func_name)
     ∧ error_shown (async_query_wrapper func_name func now_read now_store s)
       = Some ("Query failed: " +:+ e)).
Proof.
  intros Hfunc. unfold async_query_wrapper. rewrite Hfunc.
  destruct (get_cached_data _ _ _) as [cached|]; simpl; [split; [done|]|done].
  intros [=].
Qed.

Lemma failed_query_keeps_cache_and_falls_back_witness :
  session_after
    (async_query_wrapper "fetch_quality_data" (λ _, Raised "timeout") 10 11
       (set_cached_data 0 "stale" EmptyFrame initial_session))
  = set_cached_data 0 "stale" EmptyFrame initial_session.
Proof.
  apply (failed_query_keeps_cache_and_falls_back
           "fetch_quality_data" (λ _, Raised "timeout") 10%Q 11%Q _ "timeout").
  reflexivity.
Defined.

(** C6, as stated, fails: the wrapped function raises and the decorated call
    returns the demo patients instead of raising. *)
Lemma failed_query_error_is_not_propagated :
  returned
    (async_query_wrapper "fetch_patient_data" (λ _, Raised "timeout") 0 0
       initial_session)
  = Returned generate_demo_data
  ∧ returned
      (async_query_wrapper "fetch_patient_data" (λ _, Raised "timeout") 0 0
         initial_session)
    ≠ Raised "timeout".
Proof. split; [reflexivity|discriminate]. Qed.

(** X1.  Two calls one after the other: when the first call ran the wrapped
    function and stored its result, a second call within the expiry time
    returns that result without running the function again. *)
Lemma second_call_is_served_from_cache
    func_name func func' now_read now_store now_read' now_store' s result :
  get_cached_data now_read (cache_key_of func_name s) s = None →
  func s = Returned result →
  (now_read' - now_store < CACHE_EXPIRY)%Q →
  let first := async_query_wrapper func_name func now_read now_store s in
  let second :=
    async_query_wrapper func_name func' now_read' now_store'
      (session_after first) in
  func_invoked first = true
  ∧ returned second = Returned result
  ∧ func_invoked second = false
  ∧ session_after second = session_after first.
Proof.
  intros Hmiss Hfunc Hage first second.
  assert (first =
    {| returned := Returned result;
       session_after :=
         set_cached_data now_store (cache_key_of func_name s) result s;
       func_invoked := true; error_shown := None |}) as Hfirst.
  { unfold first, async_query_wrapper. by rewrite Hmiss, Hfunc. }
  unfold second. rewrite Hfirst. simpl. unfold async_query_wrapper.
  change (cache_key_of func_name (set_cached_data now_store
            (cache_key_of func_name s) result s))
    with (cache_key_of func_name s).
  erewrite get_cached_data_fresh; [done|..|exact Hage]; simpl;
    apply lookup_insert_eq.
Qed.

(** ** Cache keys *)

Lemma string_app_assoc (s1 s2 s3 : string) :
  (s1 +:+ s2) +:+ s3 = s1 +:+ (s2 +:+ s3).
Proof.
  induction s1 as [|c s1 IH]; [done|].
  change (String c ((s1 +:+ s2) +:+ s3) = String c (s1 +:+ (s2 +:+ s3))).
  by rewrite IH.
Qed.

Lemma string_app_length (s1 s2 : string) :
  String.length (s1 +:+ s2) = (String.length s1 + String.length s2)%nat.
Proof.
  induction s1 as [|c s1 IH]; [done|].
  change (S (String.length (s1 +:+ s2))
          = S (String.length s1 + String.length s2)).
  by rewrite IH.
Qed.

Lemma string_app_inj_r (s1 s2 s : string) : s1 +:+ s = s2 +:+ s → s1 = s2.
Proof.
  revert s2. induction s1 as [|c s1 IH]; intros [|c' s2] Heq.
  - done.
  - apply (f_equal String.length) in Heq.
    rewrite !string_app_length in Heq. simpl in Heq. lia.
  - apply (f_equal String.length) in Heq.
    rewrite !string_app_length in Heq. simpl in Heq. lia.
  - change (String c (s1 +:+ s) = String c' (s2 +:+ s)) in Heq.
    injection Heq as -> Heq. f_equal. by apply IH.
Qed.

Lemma decorated_keys_differ f1 f2 s1 s2 :
  f1 ∈ decorated_functions → f2 ∈ decorated_functions →
  cache_key_of f1 s1 = cache_key_of f2 s2 → f1 = f2.
Proof.
  unfold decorated_functions, cache_key_of. intros H1 H2 Hkey.
  repeat (apply elem_of_cons in H1 as [->|H1]; [|]);
    try (by apply elem_of_nil in H1);
    repeat (apply elem_of_cons in H2 as [->|H2]; [|]);
    try (by apply elem_of_nil in H2);
    try done; simpl in Hkey; discriminate.
Qed.

(** C9, as the code has it.  The key is a function of the function's name
    and of the catalog, schema and source-table names alone: sessions that
    agree on these three get the same key, whatever their golden table, cache
    contents or clock.  The keys of two different decorated functions never
    coincide, and two configurations that differ in exactly one of the three
    names get different keys. *)
Theorem cache_key_depends_on_name_and_source_table :
  (∀ func_name s1 s2,
     catalog_name (db_config s1) = catalog_name (db_config s2) →
     schema_name (db_config s1) = schema_name (db_config s2) →
     table_name (db_config s1) = table_name (db_config s2) →
     cache_key_of func_name s1 = cache_key_of func_name s2)
  ∧ (∀ f1 f2 s1 s2,
       f1 ∈ decorated_functions → f2 ∈ decorated_functions →
       cache_key_of f1 s1 = cache_key_of f2 s2 → f1 = f2)
  ∧ (∀ func_name s1 s2,
       cache_key_of func_name s1 = cache_key_of func_name s2 →
       (catalog_name (db_config s1) = catalog_name (db_config s2) →
        schema_name (db_config s1) = schema_name (db_config s2) →
        table_name (db_config s1) = table_name (db_config s2))
       ∧ (catalog_name (db_config s1) = catalog_name (db_config s2) →
          table_name (db_config s1) = table_name (db_config s2) →
          schema_name (db_config s1) = schema_name (db_config s2))
       ∧ (schema_name (db_config s1) = schema_name (db_config s2) →
          table_name (db_config s1) = table_name (db_config s2) →
          catalog_name (db_config s1) = catalog_name (db_config s2))).
Proof.
  split; [|split].
  - intros func_name s1 s2 Hc Hs Ht. unfold cache_key_of. by rewrite Hc, Hs, Ht.
  - apply decorated_keys_differ.
  - intros func_name s1 s2. unfold cache_key_of.
    destruct (db_config s1) as [c1 sc1 t1 g1], (db_config s2) as [c2 sc2 t2 g2].
    simpl. intros Hkey. do 2 apply String.app_inj in Hkey.
    split; [|split].
    + intros -> ->. by do 4 apply String.app_inj in Hkey.
    + intros -> ->. do 2 apply String.app_inj in Hkey.
      by apply string_app_inj_r in Hkey.
    + intros -> ->. by apply string_app_inj_r in Hkey.
Qed.

Lemma cache_key_depends_on_name_and_source_table_witness :
  cache_key_of "fetch_golden_records" initial_session
  = cache_key_of "fetch_golden_records"
      (with_config {| catalog_name := "danny_catalog";
                      schema_name := "healthcare_mdm_schema";
                      table_name := "patients";
                      golden_table_name := "patients_gold_v2" |}
         initial_session).
Proof.
  apply (proj1 cache_key_depends_on_name_and_source_table); reflexivity.
Defined.

(** C9, as stated, fails: two configurations whose golden tables differ give
    [fetch_golden_records] different target tables and the same key. *)
Lemma golden_table_is_not_in_the_cache_key :
  target_table "fetch_golden_records" initial_session
  ≠ target_table "fetch_golden_records"
      (with_config {| catalog_name := "danny_catalog";
                      schema_name := "healthcare_mdm_schema";
                      table_name := "patients";
                      golden_table_name := "patients_gold_v2" |}
         initial_session)
  ∧ cache_key_of "fetch_golden_records" initial_session
    = cache_key_of "fetch_golden_records"
        (with_config {| catalog_name := "danny_catalog";
                        schema_name := "healthcare_mdm_schema";
                        table_name := "patients";
                        golden_table_name := "patients_gold_v2" |}
           initial_session).
Proof. split; [vm_compute; discriminate|reflexivity]. Qed.

(** The underscore that joins the names may also be part of them: two
    different source tables with one key. *)
Example underscores_make_keys_collide :
  target_table "fetch_patient_data"
    (with_config {| catalog_name := "a_b"; schema_name := "c";
                    table_name := "t"; golden_table_name := "g" |}
       initial_session)
  ≠ target_table "fetch_patient_data"
      (with_config {| catalog_name := "a"; schema_name := "b_c";
                      table_name := "t"; golden_table_name := "g" |}
         initial_session)
  ∧ cache_key_of "fetch_patient_data"
      (with_config {| catalog_name := "a_b"; schema_name := "c";
                      table_name := "t"; golden_table_name := "g" |}
         initial_session)
    = cache_key_of "fetch_patient_data"
        (with_config {| catalog_name := "a"; schema_name := "b_c";
                        table_name := "t"; golden_table_name := "g" |}
           initial_session).
Proof. split; [vm_compute; discriminate|reflexivity]. Qed.

(** ** The queries on the patient table *)

Lemma ordered_fmap {A B} (f : A → B) (before : A → A → bool)
    (before' : B → B → bool) l :
  (∀ x y, before' (f x) (f y) = before x y) →
  ordered before l → ordered before' (f <$> l).
Proof.
  intros Hf. unfold ordered. induction 1 as [|x l Hl IH Hx]; simpl.
  - constructor.
  - constructor; [done|]. apply Forall_fmap.
    eapply Forall_impl; [exact Hx|]. intros y Hy. simpl. by rewrite Hf.
Qed.

Lemma cell_text_text_cell text : cell_text (text_cell text) = text.
Proof. by destruct text. Qed.

Lemma NoDup_fmap_inj_elem {A B} (f : A → B) (l : list A) x y :
  NoDup (f <$> l) → x ∈ l → y ∈ l → f x = f y → x = y.
Proof.
  intros Hnd [i Hi]%list_elem_of_lookup [j Hj]%list_elem_of_lookup Hxy.
  assert (i = j) as ->; [|congruence].
  eapply NoDup_lookup; [exact Hnd|..]; rewrite list_lookup_fmap.
  - by rewrite Hi.
  - rewrite Hj. simpl. by rewrite Hxy.
Qed.

Lemma elem_of_guarded_singleton {A} (P : Prop) `{Decision P} (x y : A) :
  x ∈ (if bool_decide P then [y] else []) ↔ P ∧ x = y.
Proof.
  case_bool_decide.
  - rewrite list_elem_of_singleton. tauto.
  - rewrite elem_of_nil. tauto.
Qed.

Lemma elem_of_cross_join_lt table t1 t2 :
  (t1, t2) ∈ cross_join_lt table
  ↔ t1 ∈ table ∧ t2 ∈ table ∧ (patient_id t1 < patient_id t2)%Z.
Proof.
  unfold cross_join_lt. rewrite list_elem_of_bind. split.
  - intros (x & Hin & Hx). apply list_elem_of_bind in Hin as (y & Hin & Hy).
    apply elem_of_guarded_singleton in Hin as [Hlt [= -> ->]]. done.
  - intros (H1 & H2 & Hlt). exists t1. split; [|done].
    apply list_elem_of_bind. exists t2. split; [|done].
    by apply elem_of_guarded_singleton.
Qed.

Lemma NoDup_cross_join_lt table : NoDup table → NoDup (cross_join_lt table).
Proof.
  intros Hnd. unfold cross_join_lt. apply NoDup_bind; [| |done].
  - intros x1 x2 [y1 y2] _ _ H1 H2.
    apply list_elem_of_bind in H1 as (z1 & H1 & _).
    apply list_elem_of_bind in H2 as (z2 & H2 & _).
    apply elem_of_guarded_singleton in H1 as [_ [= -> _]].
    by apply elem_of_guarded_singleton in H2 as [_ [= -> _]].
  - intros x _. apply NoDup_bind; [| |done].
    + intros y1 y2 z _ _ H1 H2.
      apply elem_of_guarded_singleton in H1 as [_ ->].
      by apply elem_of_guarded_singleton in H2 as [_ [= ->]].
    + intros y _. case_bool_decide; [apply NoDup_singleton|apply NoDup_nil_2].
Qed.

Section query_facts.
Context `{AiFunctions}.

Lemma quality_order_total r1 r2 :
  quality_order r1 r2 = true ∨ quality_order r2 r1 = true.
Proof. apply desc_int_total. Qed.

Lemma quality_order_trans r1 r2 r3 :
  quality_order r1 r2 = true → quality_order r2 r3 = true →
  quality_order r1 r3 = true.
Proof. apply desc_int_trans. Qed.

(** C8, as the code has it.  The quality query returns exactly one
    assessment per record of the table (its rows are a rearrangement of the
    per-record assessments), ordered by the quality score cast to an
    integer, highest first and NULL last; the order of the ids plays no
    part. *)
Theorem quality_query_one_row_per_record_by_score model table :
  length (quality_query model table) = length table
  ∧ quality_query model table
    ≡ₚ (λ t, quality_row (patient_quality model t)) <$> table
  ∧ q_patient_id <$> quality_query model table ≡ₚ patient_id <$> table
  ∧ ordered
      (λ r1 r2, desc_int (cast_int (cell_text (quality_score r1)))
                         (cast_int (cell_text (quality_score r2))))
      (quality_query model table).
Proof.
  assert (quality_query model table
          ≡ₚ (λ t, quality_row (patient_quality model t)) <$> table) as Hperm.
  { unfold quality_query. rewrite order_by_perm. by rewrite <-list_fmap_compose. }
  split; [|split; [done|split]].
  - by rewrite Hperm, length_fmap.
  - rewrite Hperm, <-list_fmap_compose. done.
  - unfold quality_query.
    apply (ordered_fmap _ quality_order).
    + intros x y. unfold quality_order. simpl. by rewrite !cell_text_text_cell.
    + apply order_by_ordered; [apply quality_order_total|apply quality_order_trans].
Qed.

Lemma similarity_order_total r1 r2 :
  similarity_order r1 r2 = true ∨ similarity_order r2 r1 = true.
Proof. apply desc_text_total. Qed.

Lemma similarity_order_trans r1 r2 r3 :
  similarity_order r1 r2 = true → similarity_order r2 r3 = true →
  similarity_order r1 r3 = true.
Proof. apply desc_text_trans. Qed.

Lemma duplicate_query_perm model table :
  duplicate_query model table
  ≡ₚ filter (λ r, greater_than (1#2) (similarity_score r))
       (pairwise_similarity model <$> cross_join_lt table).
Proof. unfold duplicate_query. apply order_by_perm. Qed.

Lemma greater_than_spec threshold text :
  greater_than threshold text = true →
  ∃ q, cast_double text = Some q ∧ (threshold < q)%Q.
Proof.
  unfold greater_than. destruct (cast_double text) as [q|]; [|done].
  intros Hlt. exists q. split; [done|].
  unfold Qltb in Hlt. apply Qnot_le_lt. intros Hle%Qle_bool_iff.
  by rewrite Hle in Hlt.
Qed.

(** C1, as the code has it.  Every row of the duplicate query has
    [id1 < id2] and a similarity score that casts to a number above 0.5; the
    rows are in descending order of the score column, which is text; and when
    the patient ids of the table are distinct no two rows are on the same
    unordered pair.  Nothing orders rows of equal score. *)
Theorem duplicate_query_rows model table :
  Forall (λ r, (id1 r < id2 r)%Z) (duplicate_query model table)
  ∧ Forall (λ r, ∃ q, cast_double (similarity_score r) = Some q ∧ (1#2 < q)%Q)
      (duplicate_query model table)
  ∧ ordered (λ r1 r2, desc_text (similarity_score r1) (similarity_score r2))
      (duplicate_query model table)
  ∧ (NoDup (patient_id <$> table) →
     ∀ (i j : nat) r r',
       i ≠ j →
       duplicate_query model table !! i = Some r →
       duplicate_query model table !! j = Some r' →
       ¬ same_unordered_pair r r').
Proof.
  assert (Forall (λ r, (id1 r < id2 r)%Z) (duplicate_query model table)) as Hlt.
  { rewrite duplicate_query_perm. apply Forall_forall. intros r Hr.
    apply list_elem_of_filter in Hr as [_ Hr].
    apply list_elem_of_fmap in Hr as ([t1 t2] & -> & Hp).
    apply elem_of_cross_join_lt in Hp as (_ & _ & Hp). done. }
  split; [done|split; [|split]].
  - rewrite duplicate_query_perm. apply Forall_forall. intros r Hr.
    apply list_elem_of_filter in Hr as [Hr _].
    by apply greater_than_spec, Is_true_true.
  - apply order_by_ordered;
      [apply similarity_order_total|apply similarity_order_trans].
  - intros Hids i j r r' Hij Hi Hj Hsame.
    assert (NoDup ((λ r, (id1 r, id2 r)) <$> duplicate_query model table)) as Hnd.
    { rewrite duplicate_query_perm.
      apply NoDup_fmap_2_strong.
      - intros x y Hx Hy Hxy.
        apply list_elem_of_filter in Hx as [_ Hx].
        apply list_elem_of_filter in Hy as [_ Hy].
        apply list_elem_of_fmap in Hx as ([a1 a2] & -> & Ha).
        apply list_elem_of_fmap in Hy as ([b1 b2] & -> & Hb).
        apply elem_of_cross_join_lt in Ha as (Ha1 & Ha2 & _).
        apply elem_of_cross_join_lt in Hb as (Hb1 & Hb2 & _).
        simpl in Hxy. injection Hxy as Hx1 Hx2.
        assert (a1 = b1) as ->.
        { eapply (NoDup_fmap_inj_elem patient_id); eauto. }
        assert (a2 = b2) as ->; [|done].
        eapply (NoDup_fmap_inj_elem patient_id); eauto.
      - apply NoDup_filter, NoDup_fmap_2_strong.
        + intros [a1 a2] [b1 b2] Ha Hb Hab.
          apply elem_of_cross_join_lt in Ha as (Ha1 & Ha2 & _).
          apply elem_of_cross_join_lt in Hb as (Hb1 & Hb2 & _).
          assert (patient_id a1 = patient_id b1) as H1
            by exact (f_equal id1 Hab).
          assert (patient_id a2 = patient_id b2) as H2
            by exact (f_equal id2 Hab).
          f_equal; eapply (NoDup_fmap_inj_elem patient_id); eauto.
        + apply NoDup_cross_join_lt. by apply NoDup_fmap_1 in Hids. }
    destruct Hsame as [[Ha Hb]|[Ha Hb]].
    + apply Hij. eapply NoDup_lookup; [exact Hnd|..];
        rewrite list_lookup_fmap; [by rewrite Hi|rewrite Hj; simpl].
      by rewrite Ha, Hb.
    + pose proof (proj1 (Forall_forall _ _) Hlt r
                    (list_elem_of_lookup_2 _ _ _ Hi)) as Hr.
      pose proof (proj1 (Forall_forall _ _) Hlt r'
                    (list_elem_of_lookup_2 _ _ _ Hj)) as Hr'.
      simpl in *. lia.
Qed.
End query_facts.

Lemma duplicate_query_rows_witness :
  NoDup (patient_id <$> [john; j_smith; jon])
  ∧ NoDup ((λ r, (id1 r, id2 r))
             <$> duplicate_query (H:=agreeable_model) "m" [john; j_smith; jon]).
Proof.
  assert (NoDup (patient_id <$> [john; j_smith; jon])) as Hids.
  { compute_done. }
  split; [exact Hids|].
  apply NoDup_alt. intros i j p Hi Hj.
  destruct (decide (i = j)) as [|Hij]; [done|exfalso].
  apply list_lookup_fmap_Some in Hi as (r & Hp & Hi).
  apply list_lookup_fmap_Some in Hj as (r' & Hp' & Hj).
  destruct (duplicate_query_rows (H:=agreeable_model) "m" [john; j_smith; jon])
    as (_ & _ & _ & Hpairs).
  apply (Hpairs Hids i j r r' Hij Hi Hj).
  left. rewrite Hp in Hp'. by injection Hp'.
Defined.

(** C1, as stated, fails: three pairs with the same score come back with
    (2, 3) before (1, 2). *)
Lemma equal_scores_are_not_ordered_by_ids :
  ¬ ties_broken_by_ids
      (duplicate_query (H:=agreeable_model) "m" [j_smith; john; jon]).
Proof.
  intros Hties.
  assert (∃ r r',
    duplicate_query (H:=agreeable_model) "m" [j_smith; john; jon] !! 0%nat
      = Some r
    ∧ duplicate_query (H:=agreeable_model) "m" [j_smith; john; jon] !! 1%nat
      = Some r'
    ∧ similarity_score r = similarity_score r'
    ∧ id1 r = 2%Z ∧ id1 r' = 1%Z) as (r & r' & H0 & H1 & Hs & Hr & Hr').
  { vm_compute. eexists _, _. repeat split. }
  pose proof (Hties 0%nat 1%nat r r' ltac:(lia) H0 H1 Hs). lia.
Qed.

(** The score column is ordered as text: a model answering 9 and 10 gets
    the 9 first. *)
Example score_text_order_is_not_numeric :
  (λ r, (id1 r, id2 r, similarity_score r))
    <$> duplicate_query (H:=off_scale_model) "m" [john; j_smith; jon]
  = [(1, 2, Some "9"); (1, 3, Some "10"); (2, 3, Some "10")]%Z.
Proof. vm_compute. reflexivity. Qed.

(** C8, as stated, fails: the table lists patient 1 before patient 2, the
    assessments come back with patient 2 first, as its score is higher. *)
Lemma quality_rows_do_not_follow_the_ids :
  patient_id <$> [john; j_smith] = [1; 2]%Z
  ∧ q_patient_id <$> quality_query (H:=grading_model) "m" [john; j_smith]
    = [2; 1]%Z.
Proof. split; vm_compute; reflexivity. Qed.

(** ** Decimal text *)

Lemma string_forall_app P s1 s2 :
  string_forall P (s1 +:+ s2) = string_forall P s1 && string_forall P s2.
Proof.
  induction s1 as [|c s1 IH]; [done|].
  change (P c && string_forall P (s1 +:+ s2)
          = P c && string_forall P s1 && string_forall P s2).
  by rewrite IH, andb_assoc.
Qed.

Lemma pretty_N_char_forall P d :
  string_forall P "0123456789" = true → P (pretty_N_char d) = true.
Proof.
  simpl. rewrite !andb_true_iff. intros (?&?&?&?&?&?&?&?&?&?&_).
  unfold pretty_N_char. by repeat case_match.
Qed.

Lemma pretty_N_go_forall P x s :
  string_forall P "0123456789" = true →
  string_forall P s = true →
  string_forall P (pretty_N_go x s) = true.
Proof.
  intros Hdigits. revert s.
  induction (N.lt_wf_0 x) as [x _ IH]; intros s Hs.
  destruct (decide (x = 0)%N) as [->|Hx]; [by rewrite pretty_N_go_0|].
  rewrite pretty_N_go_step by lia. apply IH.
  - apply N.div_lt; lia.
  - simpl. by rewrite pretty_N_char_forall, Hs.
Qed.

Lemma pretty_N_forall P (x : N) :
  string_forall P "0123456789" = true → string_forall P (pretty x) = true.
Proof.
  intros Hdigits. unfold pretty, pretty_N. case_decide.
  - simpl in *. apply andb_true_iff in Hdigits as [-> _]. done.
  - by apply pretty_N_go_forall.
Qed.

Lemma pretty_Z_forall P (z : Z) :
  string_forall P "0123456789" = true →
  (z < 0 → P "-"%char = true)%Z →
  string_forall P (pretty z) = true.
Proof.
  intros Hdigits Hsign. destruct z as [|p|p].
  - simpl in *. apply andb_true_iff in Hdigits as [-> _]. done.
  - by apply (pretty_N_forall P (Npos p)).
  - change (P "-"%char && string_forall P (pretty (Npos p)) = true).
    rewrite Hsign by lia. by apply pretty_N_forall.
Qed.

(** ** Splitting the list of source ids *)

Lemma snoc_app s c rest : snoc s c +:+ rest = s +:+ String c rest.
Proof. unfold snoc. by rewrite string_app_assoc. Qed.

Lemma string_app_empty_r s : s +:+ "" = s.
Proof.
  induction s as [|c s IH]; [done|].
  change (String c (s +:+ "") = String c s). by rewrite IH.
Qed.

Lemma split_go_no_sep sep current text :
  string_forall (λ c, negb (bool_decide (c = sep))) text = true →
  split_go sep current text = [current +:+ text].
Proof.
  revert current. induction text as [|c text IH]; intros current Hno; simpl.
  - by rewrite string_app_empty_r.
  - simpl in Hno. apply andb_true_iff in Hno as [Hc Hno].
    apply negb_true_iff in Hc. rewrite Hc, IH by done. by rewrite snoc_app.
Qed.

Lemma split_go_sep sep current text rest :
  string_forall (λ c, negb (bool_decide (c = sep))) text = true →
  split_go sep current (text +:+ String sep rest)
  = (current +:+ text) :: split_go sep "" rest.
Proof.
  revert current. induction text as [|c text IH]; intros current Hno.
  - simpl. rewrite bool_decide_eq_true_2 by done. by rewrite string_app_empty_r.
  - simpl in Hno. apply andb_true_iff in Hno as [Hc Hno].
    apply negb_true_iff in Hc.
    change (split_go sep current (String c (text +:+ String sep rest))
            = (current +:+ String c text) :: split_go sep "" rest).
    simpl. rewrite Hc, IH by done. by rewrite snoc_app.
Qed.

Lemma pretty_Z_no_comma (z : Z) :
  string_forall (λ c, negb (bool_decide (c = ","%char))) (pretty z) = true.
Proof. by apply pretty_Z_forall. Qed.

Lemma split_source_ids (a b : Z) :
  split ","%char (pretty a +:+ "," +:+ pretty b) = [pretty a; pretty b].
Proof.
  unfold split.
  change (pretty a +:+ "," +:+ pretty b)
    with (pretty a +:+ String ","%char (pretty b)).
  rewrite split_go_sep by apply pretty_Z_no_comma.
  by rewrite split_go_no_sep by apply pretty_Z_no_comma.
Qed.

(** ** Generating golden records *)

Lemma sql_query_connected statement user_token db :
  sql_query Connected statement user_token db
  = match statement db with
    | Returned (df, db') =>
        {| frame := df; database_after := db'; connection_error := None |}
    | Raised e =>
        {| frame := generate_demo_data; database_after := db;
           connection_error := Some ("Database connection error: " +:+ e) |}
    end.
Proof.
  unfold sql_query, sql_query_with_user_token.
  destruct user_token as [token|]; [case_bool_decide|]; done.
Qed.

Section golden_facts.
Context `{AiFunctions}.


Lemma source_ids_of_text p :
  source_ids_of p
  = Some (pretty (patient_id p.1) +:+ "," +:+ pretty (patient_id p.2)).
Proof.
  unfold source_ids_of. simpl. by rewrite string_app_empty_r.
Qed.

Lemma golden_insert_row_columns model now identity p :
  golden_insert_row model now identity p !! "steward_status"
  = Some (VText "pending")
  ∧ golden_insert_row model now identity p !! "source_patient_ids"
    = Some (VText (pretty (patient_id p.1) +:+ "," +:+ pretty (patient_id p.2)))
  ∧ golden_record_id (golden_insert_row model now identity p) = Some identity.
Proof.
  assert (golden_insert_row model now identity p !! "source_patient_ids"
          = Some (text_cell (source_ids_of p))) as Hids by reflexivity.
  rewrite Hids, source_ids_of_text.
  unfold golden_record_id, golden_insert_row. repeat split; reflexivity.
Qed.

End golden_facts.


(** ** Reading the text of an UPDATE back *)

Lemma lex_run_app text1 text2 st :
  lex_run (text1 +:+ text2) st = lex_run text2 (lex_run text1 st).
Proof.
  revert st. induction text1 as [|c text1 IH]; intros st; [done|].
  change (lex_run (text1 +:+ text2) (lex_step st c)
          = lex_run text2 (lex_run text1 (lex_step st c))).
  apply IH.
Qed.

Lemma snoc_app_r acc c text : snoc acc c +:+ text = acc +:+ String c text.
Proof. apply snoc_app. Qed.

(** Inside a literal, text without quote or backslash is taken as it is. *)
Lemma lex_run_plain text acc toks :
  plain text = true →
  lex_run text (InString acc, toks) = (InString (acc +:+ text), toks).
Proof.
  revert acc. induction text as [|c text IH]; intros acc Hplain; simpl.
  - by rewrite string_app_empty_r.
  - unfold plain in Hplain. simpl in Hplain.
    apply andb_true_iff in Hplain as [Hc Hplain].
    apply andb_true_iff in Hc as [Hq Hb].
    apply negb_true_iff in Hq, Hb. rewrite Hq, Hb.
    rewrite IH by done. by rewrite snoc_app_r.
Qed.

(** So is text whose quotes have been doubled, as long as it has no
    backslash. *)
Lemma lex_run_escaped text acc toks :
  no_backslash text = true →
  lex_run (escape_quotes text) (InString acc, toks)
  = (InString (acc +:+ text), toks).
Proof.
  revert acc. induction text as [|c text IH]; intros acc Hno; simpl.
  - by rewrite string_app_empty_r.
  - unfold no_backslash in Hno. simpl in Hno.
    apply andb_true_iff in Hno as [Hb Hno]. apply negb_true_iff in Hb.
    destruct (decide (c = quote_char)) as [Hq|Hq].
    + subst c. simpl. rewrite IH by done. by rewrite snoc_app_r.
    + rewrite !(bool_decide_eq_false_2 _ Hq). simpl.
      rewrite !(bool_decide_eq_false_2 _ Hq), Hb.
      rewrite IH by done. by rewrite snoc_app_r.
Qed.

Lemma is_word_char_idle c toks :
  is_word_char c = true → lex_idle toks c = (InWord (String c ""), toks).
Proof.
  intros Hc. unfold lex_idle.
  destruct c as [[] [] [] [] [] [] [] []]; try discriminate Hc; reflexivity.
Qed.

Lemma lex_run_word_more text w toks :
  string_forall is_word_char text = true →
  lex_run text (InWord w, toks) = (InWord (w +:+ text), toks).
Proof.
  revert w. induction text as [|c text IH]; intros w Hword; simpl.
  - by rewrite string_app_empty_r.
  - simpl in Hword. apply andb_true_iff in Hword as [Hc Hword].
    rewrite Hc, IH by done. by rewrite snoc_app_r.
Qed.

(** A name or a number read from between two tokens. *)
Lemma lex_run_word text toks :
  word_text text = true →
  lex_run text (Idle, toks) = (InWord text, toks).
Proof.
  unfold word_text. intros [Hword Hne]%andb_true_iff.
  destruct text as [|c text]; [done|]. simpl in *.
  apply andb_true_iff in Hword as [Hc Hword].
  rewrite is_word_char_idle by done. by rewrite lex_run_word_more.
Qed.

Lemma plain_no_backslash text : plain text = true → no_backslash text = true.
Proof.
  unfold plain, no_backslash. induction text as [|c text IH]; simpl; [done|].
  rewrite !andb_true_iff. intros [[_ Hb] Hrest]. split; [done|by apply IH].
Qed.

Lemma escape_quotes_plain text : plain text = true → escape_quotes text = text.
Proof.
  unfold plain. induction text as [|c text IH]; simpl; [done|].
  rewrite !andb_true_iff, !negb_true_iff. intros [[Hq _] Hrest].
  rewrite Hq. by rewrite IH.
Qed.

(** Decimal text is read back as the number it prints. *)
Lemma parse_digits_pretty_N_go (x : N) :
  ∃ k : Z, (0 ≤ k)%Z ∧ ∀ acc text,
    parse_digits acc (pretty_N_go x text)
    = parse_digits (acc * 10 ^ k + Z.of_N x) text.
Proof.
  induction (N.lt_wf_0 x) as [x _ IH].
  destruct (decide (x = 0)%N) as [->|Hx].
  - exists 0%Z. split; [done|]. intros acc text.
    rewrite pretty_N_go_0. f_equal. lia.
  - destruct (IH (x `div` 10)%N) as (k & Hk & IHk); [apply N.div_lt; lia|].
    exists (k + 1)%Z. split; [lia|]. intros acc text.
    rewrite pretty_N_go_step, IHk by lia. simpl.
    assert (is_digit (pretty_N_char (x `mod` 10))
            && bool_decide (Z.of_N (N_of_ascii (pretty_N_char (x `mod` 10))) - 48
                            = Z.of_N (x `mod` 10))%Z = true) as Hd.
    { pose proof (N.mod_upper_bound x 10 ltac:(lia)) as Hlt.
      generalize dependent (x `mod` 10)%N. intros d Hd.
      assert (d = 0 ∨ d = 1 ∨ d = 2 ∨ d = 3 ∨ d = 4 ∨ d = 5 ∨ d = 6
              ∨ d = 7 ∨ d = 8 ∨ d = 9)%N as Hcases by lia.
      destruct Hcases as [->|[->|[->|[->|[->|[->|[->|[->|[->| ->]]]]]]]]];
        reflexivity. }
    apply andb_true_iff in Hd as [-> Hd%bool_decide_eq_true].
    f_equal. rewrite Hd, Z.pow_add_r by lia.
    pose proof (N.div_mod x 10 ltac:(lia)) as Hdm. lia.
Qed.

Lemma parse_integer_pretty (z : Z) :
  (0 ≤ z)%Z → parse_integer (pretty z) = Some z.
Proof.
  intros Hz. destruct z as [|p|p]; [done| |lia].
  change (pretty (Z.pos p)) with (pretty (Npos p)).
  unfold pretty, pretty_N. rewrite decide_False by done.
  destruct (parse_digits_pretty_N_go (Npos p)) as (k & _ & Hk).
  assert (parse_digits 0 (pretty_N_go (N.pos p) "") = Some (Z.pos p)) as Hp.
  { by rewrite Hk. }
  unfold parse_integer. destruct (pretty_N_go (N.pos p) ""); [done|exact Hp].
Qed.

Lemma word_text_pretty (z : Z) : (0 ≤ z)%Z → word_text (pretty z) = true.
Proof.
  intros Hz. unfold word_text. apply andb_true_iff. split.
  - apply pretty_Z_forall; [done|lia].
  - apply negb_true_iff, bool_decide_eq_false_2. intros Hempty.
    pose proof (parse_integer_pretty z Hz) as Hp. by rewrite Hempty in Hp.
Qed.

(** The pieces of a statement are read one after the other: a spliced name,
    number or literal by the lemmas above, the fixed text by evaluation. *)
Ltac lex_fixed_text :=
  match goal with
  | |- context [lex_run ?text (?mode, ?toks)] =>
      assert_fails (is_var text);
      let st := eval vm_compute in (lex_run text (mode, toks)) in
      change (lex_run text (mode, toks)) with st
  end.

Ltac lex_piece :=
  first [ rewrite lex_run_word by assumption
        | rewrite lex_run_plain by assumption
        | rewrite lex_run_escaped by assumption
        | lex_fixed_text ].

Ltac parse_fixed_tokens :=
  match goal with
  | |- context [foldl parse_step ExpectUpdate ?toks] =>
      let st := eval vm_compute in (foldl parse_step ExpectUpdate toks) in
      change (foldl parse_step ExpectUpdate toks) with st
  end.

Lemma parse_update_status_text table_ref status comments approved_by record_id :
  word_text table_ref = true →
  plain status = true → plain comments = true → plain approved_by = true →
  (0 ≤ record_id)%Z →
  parse_update
    (update_status_text table_ref status comments approved_by record_id)
  = Some {| target := table_ref;
            assignments :=
              [("steward_status", ELiteral status);
               ("steward_comments", ELiteral comments);
               ("approved_by", ELiteral approved_by);
               ("approved_at", ECurrentTimestamp);
               ("updated_at", ECurrentTimestamp)];
            where_id := record_id |}.
Proof.
  intros Htable Hstatus Hcomments Hby Hid.
  pose proof (word_text_pretty record_id Hid) as Hword.
  pose proof (parse_integer_pretty record_id Hid) as Hparse.
  unfold parse_update, tokenize, update_status_text, steward_assignments_text.
  revert Hword Hparse. generalize (pretty record_id). intros id_text Hword Hparse.
  rewrite !lex_run_app. repeat lex_piece.
  cbv beta iota. rewrite reverse_cons.
  change (Some ?l ≫= ?f) with (f l). cbv beta.
  rewrite foldl_app. parse_fixed_tokens.
  change (foldl parse_step ?st [?tok]) with (parse_step st tok).
  unfold parse_step. by rewrite Hparse.
Qed.

(** ** Stewardship decisions *)

Lemma steward_columns_can_be_set (v1 v2 v3 v4 v5 : SqlExpr) :
  Forall (λ a : string * SqlExpr,
            a.1 ∈ golden_columns ∧ a.1 ≠ "golden_record_id")
    [("steward_status", v1); ("steward_comments", v2); ("approved_by", v3);
     ("approved_at", v4); ("updated_at", v5)]
  ∧ NoDup [("steward_status", v1); ("steward_comments", v2);
            ("approved_by", v3); ("approved_at", v4); ("updated_at", v5)].*1.
Proof. split; [repeat constructor; compute_done|compute_done]. Qed.

(** With plain text for the status, the comments and the reviewer, the
    statement of [update_golden_record_status] is read back as written: the
    five stewardship columns of the rows with the given id are set. *)
Lemma update_golden_record_status_plain
    now s record_id status comments approved_by user_token db :
  word_text (get_table_reference "golden" s) = true →
  plain status = true → plain comments = true → plain approved_by = true →
  (0 ≤ record_id)%Z →
  update_golden_record_status Connected now s record_id status comments
    approved_by user_token db
  = (true,
     {| frame := EmptyFrame;
        database_after :=
          update_rows record_id (decided now status comments approved_by) db;
        connection_error := None |}).
Proof.
  intros Htable Hstatus Hcomments Hby Hid.
  unfold update_golden_record_status. rewrite sql_query_connected.
  unfold execute_update. rewrite parse_update_status_text by done.
  cbn [target assignments where_id].
  rewrite (bool_decide_eq_true_2 (_ = _)) by done.
  rewrite bool_decide_eq_true_2 by apply steward_columns_can_be_set.
  reflexivity.
Qed.

Lemma decided_other_columns now status comments approved_by row col :
  col ∉ steward_columns →
  decided now status comments approved_by row !! col = row !! col.
Proof.
  unfold steward_columns, decided. intros Hcol.
  rewrite !not_elem_of_cons in Hcol. destruct Hcol as (?&?&?&?&?&_).
  by rewrite !lookup_insert_ne by done.
Qed.

Lemma decided_status now status comments approved_by row :
  decided now status comments approved_by row !! "steward_status"
  = Some (VText status).
Proof.
  unfold decided. rewrite !lookup_insert_ne by done. apply lookup_insert_eq.
Qed.

(** X15.  The frame of a decision whose texts are plain: patients and row count
    stay, rows with another id stay, and a row with the id keeps every
    column outside the five stewardship columns. *)
Lemma update_golden_record_status_frame
    now s record_id status comments approved_by user_token db :
  word_text (get_table_reference "golden" s) = true →
  plain status = true → plain comments = true → plain approved_by = true →
  (0 ≤ record_id)%Z →
  let db' :=
    database_after
      (update_golden_record_status Connected now s record_id status comments
         approved_by user_token db).2 in
  patients db' = patients db
  ∧ length (golden_records db') = length (golden_records db)
  ∧ ∀ (i : nat) row,
      golden_records db !! i = Some row →
      ∃ row',
        golden_records db' !! i = Some row'
        ∧ (golden_record_id row ≠ Some record_id → row' = row)
        ∧ (∀ col, col ∉ steward_columns → row' !! col = row !! col).
Proof.
  intros Htable Hstatus Hcomments Hby Hid db'. unfold db'.
  rewrite update_golden_record_status_plain by done. simpl.
  split; [done|split; [by rewrite length_fmap|]].
  intros i row Hrow. rewrite list_lookup_fmap, Hrow. simpl.
  eexists. split; [reflexivity|]. case_bool_decide; split; try done.
  intros col Hcol. by apply decided_other_columns.
Qed.

(** C10, at the failing input.  The comments are spliced into the statement
    between two quotes and may close the literal themselves: with the
    comments [x', patient_name = 'y] the statement also assigns
    [patient_name], and the patient name of the record is overwritten. *)
Theorem injected_comment_overwrites_patient_name :
  (update_golden_record_status Connected 5 initial_session 1 "rejected"
     "x', patient_name = 'y" "Data Steward" None (one_record_db "pending")).1
  = true
  ∧ (λ row, row !! "patient_name") <$> golden_records (one_record_db "pending")
    = [Some (VText "John Smith")]
  ∧ (λ row, row !! "patient_name")
      <$> golden_records
            (database_after
               (update_golden_record_status Connected 5 initial_session 1
                  "rejected" "x', patient_name = 'y" "Data Steward" None
                  (one_record_db "pending")).2)
    = [Some (VText "y")].
Proof. repeat split; vm_compute; reflexivity. Qed.

(** An apostrophe in the comments makes the statement unreadable: the
    warehouse refuses it, the query function swallows the error, and the
    update reports success with nothing changed. *)
Example apostrophe_in_comments_is_lost :
  (update_golden_record_status Connected 5 initial_session 1 "rejected"
     "it's a duplicate" "Data Steward" None (one_record_db "pending")).1
  = true
  ∧ golden_records
      (database_after
         (update_golden_record_status Connected 5 initial_session 1
            "rejected" "it's a duplicate" "Data Steward" None
            (one_record_db "pending")).2)
    = golden_records (one_record_db "pending").
Proof. split; vm_compute; reflexivity. Qed.

(** C4.  A click on the reject button with empty comments shows the
    validation error and leaves the database, and so the record's status,
    comments, reviewer and timestamps, as they were; the same holds along the
    whole review page for a record shown as pending. *)
Theorem reject_without_comments_is_refused :
  (∀ conn now s record_id edited_value steward_name user_token db,
     decision_buttons conn now s record_id edited_value "" steward_name
       user_token ClickReject db
     = {| shown := StError "Please provide comments when rejecting a record.";
          ui_database := db |})
  ∧ (∀ conn_fetch conn now s record edited_value steward_name user_token db,
       ui_database
         (show_data_stewardship_record conn_fetch conn now s record
            edited_value "" steward_name user_token ClickReject db)
       = db).
Proof.
  split; [done|].
  intros conn_fetch conn now s record edited_value steward_name user_token db.
  unfold show_data_stewardship_record, show_enhanced_stewardship_interface.
  repeat (case_match; simpl; try done).
Qed.

(** C3, as stated, fails: a record that is already approved is rejected by a
    second call, which reports success, shows no error and overwrites the
    status. *)
Lemma second_transition_overwrites_status :
  (λ row, row !! "steward_status") <$> golden_records (one_record_db "approved")
  = [Some (VText "approved")]
  ∧ (update_golden_record_status Connected 5 initial_session 1 "rejected"
       "duplicate of 7" "Data Steward" None (one_record_db "approved")).1
    = true
  ∧ connection_error
      (update_golden_record_status Connected 5 initial_session 1 "rejected"
         "duplicate of 7" "Data Steward" None (one_record_db "approved")).2
    = None
  ∧ (λ row, row !! "steward_status")
      <$> golden_records
            (database_after
               (update_golden_record_status Connected 5 initial_session 1
                  "rejected" "duplicate of 7" "Data Steward" None
                  (one_record_db "approved")).2)
    = [Some (VText "rejected")].
Proof. repeat split; vm_compute; reflexivity. Qed.

(** ** The statement with the steward's edits *)

Local Open Scope list_scope.

Ltac lex_char :=
  match goal with
  | |- context [lex_step (?mode, ?toks) ?c] =>
      let st := eval vm_compute in (lex_step (mode, toks) c) in
      change (lex_step (mode, toks) c) with st
  end.

Lemma lex_run_set_clause item more toks :
  word_text item.1 = true →
  (∀ value, item.2 = Some value → no_backslash value = true) →
  lex_run (set_clause_of item +:+ String ","%char more) (Idle, toks)
  = lex_run more (Idle, reverse (edit_tokens item) ++ toks).
Proof.
  destruct item as [field [value|]]; simpl; intros Hfield Hvalue;
    unfold set_clause_of; simpl.
  - pose proof (Hvalue value eq_refl) as Hno.
    rewrite !lex_run_app.
    change (lex_run (String ","%char more) ?st)
      with (lex_run more (lex_step st ","%char)).
    repeat lex_piece. lex_char. reflexivity.
  - rewrite !lex_run_app.
    change (lex_run (String ","%char more) ?st)
      with (lex_run more (lex_step st ","%char)).
    repeat lex_piece. lex_char. reflexivity.
Qed.

Lemma lex_run_set_clauses edits rest toks :
  edits ≠ [] →
  Forall (λ item : string * option string,
            word_text item.1 = true
            ∧ ∀ value, item.2 = Some value → no_backslash value = true) edits →
  lex_run (join ", " (set_clause_of <$> edits) +:+ String ","%char rest)
    (Idle, toks)
  = lex_run rest (Idle, reverse (edits ≫= edit_tokens) ++ toks).
Proof.
  intros Hne Hall. revert toks.
  induction Hall as [|item edits [Hfield Hvalue] Hall IH]; [done|].
  intros toks. destruct edits as [|item' edits].
  - simpl. by rewrite lex_run_set_clause by done.
  - change (join ", " (set_clause_of <$> item :: item' :: edits))
      with (set_clause_of item +:+ ", "
            +:+ join ", " (set_clause_of <$> item' :: edits)).
    rewrite !string_app_assoc.
    change (", " +:+ ?text) with (String ","%char (String " "%char text)).
    rewrite lex_run_set_clause by done.
    change (lex_run (String " "%char ?text) (Idle, ?t))
      with (lex_run text (Idle, t)).
    rewrite IH by done.
    change ((item :: item' :: edits) ≫= edit_tokens)
      with (edit_tokens item ++ ((item' :: edits) ≫= edit_tokens)).
    by rewrite reverse_app, <-app_assoc.
Qed.

Lemma parse_edit_tokens table edits read :
  foldl parse_step (ExpectColumn table read) (edits ≫= edit_tokens)
  = ExpectColumn table (reverse (edit_assignment <$> edits) ++ read).
Proof.
  revert read. induction edits as [|item edits IH]; intros read; [done|].
  change ((item :: edits) ≫= edit_tokens)
    with (edit_tokens item ++ (edits ≫= edit_tokens)).
  rewrite foldl_app.
  assert (foldl parse_step (ExpectColumn table read) (edit_tokens item)
          = ExpectColumn table (edit_assignment item :: read)) as ->.
  { by destruct item as [field [value|]]. }
  rewrite IH. rewrite fmap_cons, reverse_cons. by rewrite <-app_assoc.
Qed.

Ltac split_tokens_at tail l :=
  lazymatch l with
  | tail => constr:(@nil Token)
  | ?tok :: ?l' => let pre := split_tokens_at tail l' in constr:(tok :: pre)
  end.

Ltac parse_tokens_from_column :=
  match goal with
  | |- context [foldl parse_step (ExpectColumn ?t ?d) ?toks] =>
      let st := eval vm_compute in (foldl parse_step (ExpectColumn t d) toks) in
      change (foldl parse_step (ExpectColumn t d) toks) with st
  end.

Lemma parse_update_edits_text
    table_ref updated_data status comments approved_by record_id :
  word_text table_ref = true →
  updated_data ≠ [] →
  Forall (λ item : string * option string,
            word_text item.1 = true
            ∧ ∀ value, item.2 = Some value → no_backslash value = true)
    updated_data →
  plain status = true → plain comments = true → plain approved_by = true →
  (0 ≤ record_id)%Z →
  parse_update
    (update_edits_text table_ref updated_data status comments approved_by
       record_id)
  = Some {| target := table_ref;
            assignments :=
              (edit_assignment <$> updated_data) ++
              [("steward_status", ELiteral status);
               ("steward_comments", ELiteral comments);
               ("approved_by", ELiteral approved_by);
               ("approved_at", ECurrentTimestamp);
               ("updated_at", ECurrentTimestamp)];
            where_id := record_id |}.
Proof.
  intros Htable Hne Hedits Hstatus Hcomments Hby Hid.
  pose proof (word_text_pretty record_id Hid) as Hword.
  pose proof (parse_integer_pretty record_id Hid) as Hparse.
  unfold parse_update, tokenize, update_edits_text, steward_assignments_text.
  revert Hword Hparse. generalize (pretty record_id). intros id_text Hword Hparse.
  do 5 rewrite lex_run_app. do 5 lex_piece.
  change ("," +:+ ?text) with (String ","%char text).
  rewrite lex_run_set_clauses by done.
  remember (reverse (updated_data ≫= edit_tokens)
            ++ [TWord "SET"; TWord table_ref; TWord "UPDATE"]) as toks0 eqn:Htoks.
  rewrite !lex_run_app. repeat lex_piece. cbv beta iota.
  match goal with
  | |- context [reverse ?l] =>
      let pre := split_tokens_at toks0 l in change l with (pre ++ toks0)
  end.
  rewrite reverse_app. subst toks0. rewrite reverse_app, reverse_involutive.
  change (Some ?l ≫= ?f) with (f l). cbv beta.
  rewrite !foldl_app. parse_fixed_tokens.
  rewrite parse_edit_tokens.
  remember (reverse (edit_assignment <$> updated_data) ++ []) as read eqn:Hread.
  rewrite reverse_cons, foldl_app. parse_tokens_from_column.
  change (foldl parse_step ?st [?tok]) with (parse_step st tok).
  unfold parse_step. rewrite Hparse. subst read.
  do 2 f_equal. rewrite app_nil_r, !reverse_cons, reverse_involutive.
  by rewrite <-!app_assoc.
Qed.

Lemma golden_field_is_settable field :
  field ∈ golden_fields →
  field ∈ golden_columns ∧ field ≠ "golden_record_id"
  ∧ field ∉ steward_columns.
Proof.
  unfold golden_fields. intros Hfield.
  repeat (apply elem_of_cons in Hfield as [->|Hfield];
          [repeat split; compute_done|]).
  by apply elem_of_nil in Hfield.
Qed.

Lemma edit_assignment_fields (updated_data : list (string * option string)) :
  (edit_assignment <$> updated_data).*1 = updated_data.*1.
Proof.
  induction updated_data as [|item updated_data IH]; [done|].
  rewrite !fmap_cons, IH. done.
Qed.

Lemma edits_can_be_set updated_data (v1 v2 v3 v4 v5 : SqlExpr) :
  Forall (λ item : string * option string, item.1 ∈ golden_fields)
    updated_data →
  NoDup updated_data.*1 →
  Forall (λ a : string * SqlExpr,
            a.1 ∈ golden_columns ∧ a.1 ≠ "golden_record_id")
    ((edit_assignment <$> updated_data) ++
     [("steward_status", v1); ("steward_comments", v2); ("approved_by", v3);
      ("approved_at", v4); ("updated_at", v5)])
  ∧ NoDup ((edit_assignment <$> updated_data) ++
           [("steward_status", v1); ("steward_comments", v2);
            ("approved_by", v3); ("approved_at", v4); ("updated_at", v5)]).*1.
Proof.
  intros Hfields Hnd.
  destruct (steward_columns_can_be_set v1 v2 v3 v4 v5) as [Hfive Hnd5].
  split.
  - apply Forall_app. split; [|done]. apply Forall_fmap.
    eapply Forall_impl; [exact Hfields|]. intros item Hitem. simpl.
    by destruct (golden_field_is_settable _ Hitem) as (? & ? & _).
  - rewrite fmap_app, edit_assignment_fields. apply NoDup_app.
    split; [done|split; [|done]].
    intros field Hin Hin5.
    apply list_elem_of_fmap in Hin as (item & -> & Hitem).
    pose proof (proj1 (Forall_forall _ _) Hfields item Hitem) as Hfield.
    by destruct (golden_field_is_settable _ Hfield) as (_ & _ & Hno).
Qed.

Lemma store_cell_columns now assignments cells :
  mapM (store_cell now) assignments = Some cells →
  cells.*1 = assignments.*1.
Proof.
  intros Hcells%mapM_Some_1.
  induction Hcells as [|a c asg cells Hc _ IH]; [done|].
  rewrite !fmap_cons, IH. f_equal.
  unfold store_cell in Hc.
  destruct (column_type a.1) as [ty|]; [|done]. simpl in Hc.
  destruct (match a.2 with
            | ELiteral text => cast_literal ty text
            | ECurrentTimestamp =>
                match ty with
                | ColTimestamp | ColString | ColDate => Some (VTimestamp now)
                | ColDouble | ColBigint => None
                end
            | ENull => Some VNull
            end) as [cell|]; [|done].
  simpl in Hc. by injection Hc as <-.
Qed.

Lemma store_cell_of_edit now (item : string * option string) :
  item.1 ∈ golden_fields →
  (∀ value, item = ("date_of_birth", Some value) → is_Some (parse_date value)) →
  store_cell now (edit_assignment item) = Some (edit_cell item).
Proof.
  destruct item as [field [value|]]; unfold golden_fields; simpl;
    intros Hfield Hdate;
    repeat (apply elem_of_cons in Hfield as [->|Hfield];
            [first [ reflexivity
                   | destruct (Hdate value eq_refl) as [date Hparse];
                     unfold store_cell, edit_assignment, edit_cell,
                       cast_literal; simpl; by rewrite Hparse ]|]);
    by apply elem_of_nil in Hfield.
Qed.

Lemma store_cells_of_edits now (updated_data : list (string * option string))
    status comments approved_by :
  Forall (λ item : string * option string, item.1 ∈ golden_fields)
    updated_data →
  (∀ value,
     ("date_of_birth", Some value) ∈ updated_data →
     is_Some (parse_date value)) →
  mapM (store_cell now)
    ((edit_assignment <$> updated_data) ++
     [("steward_status", ELiteral status);
      ("steward_comments", ELiteral comments);
      ("approved_by", ELiteral approved_by);
      ("approved_at", ECurrentTimestamp);
      ("updated_at", ECurrentTimestamp)])
  = Some ((edit_cell <$> updated_data) ++
          [("steward_status", VText status);
           ("steward_comments", VText comments);
           ("approved_by", VText approved_by);
           ("approved_at", VTimestamp now);
           ("updated_at", VTimestamp now)]).
Proof.
  intros Hfields Hdate. apply mapM_Some_2, Forall2_app.
  - apply Forall2_fmap, Forall_Forall2_diag, Forall_forall.
    intros item Hitem. apply store_cell_of_edit.
    + by apply (proj1 (Forall_forall _ _) Hfields).
    + intros value ->. by apply Hdate.
  - repeat constructor.
Qed.

(** With edits on merged columns, each at most once, with no backslash in
    the edited values and with a date of birth that is left empty or
    written [yyyy-mm-dd], the statement of
    [update_golden_record_with_steward_edits] is read back as written: the
    rows with the given id get the edits and then the decision. *)
Lemma update_golden_record_with_steward_edits_plain
    now s record_id updated_data status comments approved_by user_token db :
  word_text (get_table_reference "golden" s) = true →
  updated_data ≠ [] →
  Forall (λ item : string * option string,
            item.1 ∈ golden_fields
            ∧ ∀ value, item.2 = Some value → no_backslash value = true)
    updated_data →
  NoDup updated_data.*1 →
  (∀ value,
     ("date_of_birth", Some value) ∈ updated_data →
     is_Some (parse_date value)) →
  plain status = true → plain comments = true → plain approved_by = true →
  (0 ≤ record_id)%Z →
  update_golden_record_with_steward_edits Connected now s record_id
    updated_data status comments approved_by user_token db
  = (true,
     {| frame := EmptyFrame;
        database_after :=
          update_rows record_id
            (λ row, decided now status comments approved_by
                      (apply_cells (edit_cell <$> updated_data) row)) db;
        connection_error := None |}).
Proof.
  intros Htable Hne Hedits Hnd Hdate Hstatus Hcomments Hby Hid.
  assert (Forall (λ item : string * option string, item.1 ∈ golden_fields)
            updated_data) as Hfields.
  { eapply Forall_impl; [exact Hedits|]. by intros item [? _]. }
  assert (Forall (λ item : string * option string,
                    word_text item.1 = true
                    ∧ ∀ value, item.2 = Some value → no_backslash value = true)
            updated_data) as Hwords.
  { eapply Forall_impl; [exact Hedits|]. intros item [Hfield Hvalue].
    split; [|done]. revert Hfield. unfold golden_fields. intros Hfield.
    repeat (apply elem_of_cons in Hfield as [->|Hfield]; [reflexivity|]).
    by apply elem_of_nil in Hfield. }
  unfold update_golden_record_with_steward_edits. rewrite sql_query_connected.
  unfold execute_update. rewrite parse_update_edits_text by done.
  cbn [target assignments where_id].
  rewrite (bool_decide_eq_true_2 (_ = _)) by done.
  rewrite bool_decide_eq_true_2 by by apply edits_can_be_set.
  rewrite store_cells_of_edits by done.
  unfold update_rows, apply_cells, decided. do 3 f_equal.
  apply list_fmap_ext. intros i row _.
  case_bool_decide; [|done]. by rewrite foldl_app.
Qed.

Lemma updated_golden_record_is_well_formed edited_value :
  (∀ field_key, no_backslash (edited_value field_key) = true) →
  updated_golden_record edited_value ≠ []
  ∧ Forall (λ item : string * option string,
              item.1 ∈ golden_fields
              ∧ ∀ value, item.2 = Some value → no_backslash value = true)
      (updated_golden_record edited_value)
  ∧ NoDup (updated_golden_record edited_value).*1.
Proof.
  intros Hno. unfold updated_golden_record. split; [done|split].
  - apply Forall_fmap, Forall_forall. intros field_key Hfield. simpl.
    split; [done|]. intros value. case_bool_decide; [done|].
    intros [= <-]. apply Hno.
  - change (((λ field_key,
                (field_key,
                 if bool_decide (edited_value field_key = "") then None
                 else Some (edited_value field_key))) <$> golden_fields).*1)
      with golden_fields.
    compute_done.
Qed.

(** C3, as the code has it.  With the warehouse connected, a golden table
    reference made of letters, digits, underscores and dots, a record id
    that is not negative, and a status, comments and a reviewer's name
    without quote or backslash, [update_golden_record_status] sets the
    stewardship columns of the rows with the given id and reports success
    whatever the status of the rows was, and so does the reject button with
    comments that are not empty: so it is on a pending record, and so it is
    again on a record already decided.  No call ends in a state conflict.
    What keeps a decided record from a second decision is the review page
    alone, which does nothing for a row it shows as approved or
    rejected. *)
Theorem decisions_set_the_status_whatever_it_was :
  (∀ now s record_id status comments approved_by user_token db,
     word_text (get_table_reference "golden" s) = true →
     plain status = true → plain comments = true → plain approved_by = true →
     (0 ≤ record_id)%Z →
     update_golden_record_status Connected now s record_id status comments
       approved_by user_token db
     = (true,
        {| frame := EmptyFrame;
           database_after :=
             update_rows record_id (decided now status comments approved_by) db;
           connection_error := None |}))
  ∧ (∀ now s record_id edited_value comments steward_name user_token db,
       word_text (get_table_reference "golden" s) = true →
       comments ≠ "" → plain comments = true → plain steward_name = true →
       (0 ≤ record_id)%Z →
       decision_buttons Connected now s record_id edited_value comments
         steward_name user_token ClickReject db
       = {| shown := StSuccess "Record rejected!";
            ui_database :=
              update_rows record_id
                (decided now "rejected" comments steward_name) db |})
  ∧ (∀ now status comments approved_by row,
       decided now status comments approved_by row !! "steward_status"
       = Some (VText status))
  ∧ (∀ conn_fetch conn now s record status_shown edited_value comments
       steward_name user_token click db,
       record !! "steward_status" = Some (VText status_shown) →
       status_shown ≠ "pending" →
       show_data_stewardship_record conn_fetch conn now s record edited_value
         comments steward_name user_token click db
       = {| shown := NothingShown; ui_database := db |}).
Proof.
  split; [|split; [|split]].
  - apply update_golden_record_status_plain.
  - intros now s record_id edited_value comments steward_name user_token db
      Htable Hne Hcomments Hname Hid.
    unfold decision_buttons. rewrite bool_decide_eq_false_2 by done.
    by rewrite update_golden_record_status_plain.
  - apply decided_status.
  - intros conn_fetch conn now s record status_shown edited_value comments
      steward_name user_token click db Hstatus Hne.
    unfold show_data_stewardship_record. rewrite Hstatus.
    by rewrite bool_decide_eq_false_2.
Qed.

Lemma decisions_set_the_status_whatever_it_was_witness :
  update_golden_record_status Connected 5 initial_session 1 "rejected"
    "duplicate of 7" "Data Steward" None (one_record_db "pending")
  = (true,
     {| frame := EmptyFrame;
        database_after :=
          update_rows 1 (decided 5 "rejected" "duplicate of 7" "Data Steward")
            (one_record_db "pending");
        connection_error := None |}).
Proof.
  apply (proj1 decisions_set_the_status_whatever_it_was);
    [reflexivity..|lia].
Defined.

(** ** More on the cache *)

Lemma second_call_is_served_from_cache_witness :
  returned
    (async_query_wrapper "fetch_patient_data" (λ _, Raised "down") 299 299
       (session_after
          (async_query_wrapper "fetch_patient_data"
             (λ _, Returned EmptyFrame) 0 0 initial_session)))
  = Returned EmptyFrame.
Proof.
  apply (second_call_is_served_from_cache "fetch_patient_data"
           (λ _, Returned EmptyFrame) (λ _, Raised "down") 0%Q 0%Q 299%Q 299%Q
           initial_session EmptyFrame);
    reflexivity.
Defined.

Lemma get_cached_data_other now cache_key other t data s :
  other ≠ cache_key →
  get_cached_data now other (set_cached_data t cache_key data s)
  = get_cached_data now other s.
Proof.
  intros Hne. unfold get_cached_data, is_cache_valid. simpl.
  by rewrite !lookup_insert_ne.
Qed.

Lemma get_cached_data_stored now cache_key t data s :
  (now - t < CACHE_EXPIRY)%Q →
  get_cached_data now cache_key (set_cached_data t cache_key data s) = Some data.
Proof.
  intros Hage. eapply get_cached_data_fresh; [..|exact Hage]; simpl;
    apply lookup_insert_eq.
Qed.

(** X2.  What [set_cached_data] stores under a key is what [get_cached_data]
    returns for it until the entry is 300 seconds old, also when the key held
    something else before; the entries of the other keys are read as
    before. *)
Theorem stored_data_is_read_back now t cache_key data s :
  (now - t < CACHE_EXPIRY)%Q →
  get_cached_data now cache_key (set_cached_data t cache_key data s) = Some data
  ∧ (∀ t' data',
       get_cached_data now cache_key
         (set_cached_data t cache_key data
            (set_cached_data t' cache_key data' s))
       = Some data)
  ∧ (∀ now' other,
       other ≠ cache_key →
       get_cached_data now' other (set_cached_data t cache_key data s)
       = get_cached_data now' other s).
Proof.
  intros Hage. split; [by apply get_cached_data_stored|split].
  - intros t' data'. by apply get_cached_data_stored.
  - intros now' other Hne. by apply get_cached_data_other.
Qed.

Lemma stored_data_is_read_back_witness :
  get_cached_data 299 "k" (set_cached_data 0 "k" generate_demo_data initial_session)
  = Some generate_demo_data.
Proof.
  apply (stored_data_is_read_back 299%Q 0%Q "k" generate_demo_data
           initial_session).
  reflexivity.
Defined.

Lemma wrapper_miss func_name func now_read now_store s result :
  get_cached_data now_read (cache_key_of func_name s) s = None →
  func s = Returned result →
  async_query_wrapper func_name func now_read now_store s
  = {| returned := Returned result;
       session_after :=
         set_cached_data now_store (cache_key_of func_name s) result s;
       func_invoked := true; error_shown := None |}.
Proof. intros Hmiss Hfunc. unfold async_query_wrapper. by rewrite Hmiss, Hfunc. Qed.

Lemma wrapper_hit func_name func now_read now_store s cached :
  get_cached_data now_read (cache_key_of func_name s) s = Some cached →
  async_query_wrapper func_name func now_read now_store s
  = {| returned := Returned cached; session_after := s;
       func_invoked := false; error_shown := None |}.
Proof. intros Hhit. unfold async_query_wrapper. by rewrite Hhit. Qed.

Lemma sql_query_unreachable e statement user_token db :
  sql_query (Unreachable e) statement user_token db
  = {| frame := generate_demo_data; database_after := db;
       connection_error := Some ("Database connection error: " +:+ e) |}.
Proof.
  unfold sql_query, sql_query_with_user_token.
  destruct user_token as [token|]; [case_bool_decide|]; done.
Qed.

Lemma demo_result_is_cached func_name func now_read now_store s :
  get_cached_data now_read (cache_key_of func_name s) s = None →
  func s = Returned generate_demo_data →
  async_query_wrapper func_name func now_read now_store s
  = {| returned := Returned generate_demo_data;
       session_after :=
         set_cached_data now_store (cache_key_of func_name s)
           generate_demo_data s;
       func_invoked := true; error_shown := None |}
  ∧ ∀ func' now_read' now_store',
      (now_read' - now_store < CACHE_EXPIRY)%Q →
      async_query_wrapper func_name func' now_read' now_store'
        (session_after
           (async_query_wrapper func_name func now_read now_store s))
      = {| returned := Returned generate_demo_data;
           session_after :=
             session_after
               (async_query_wrapper func_name func now_read now_store s);
           func_invoked := false; error_shown := None |}.
Proof.
  intros Hmiss Hfunc.
  rewrite (wrapper_miss _ _ _ _ _ _ Hmiss Hfunc). split; [done|].
  intros func' now_read' now_store' Hage. apply wrapper_hit.
  cbn [session_after]. by apply get_cached_data_stored.
Qed.

Section more_cache_facts.
Context `{AiFunctions}.

(** X3.  When the warehouse cannot be reached, each of the four decorated
    functions gets the demo patients from the query function, which has
    caught the error: the decorator sees a result, shows no error of its own
    and stores the demo patients under the function's key.  A later call
    within the expiry time returns them again, whatever the connection and
    the tables are by then. *)
Theorem connection_failure_is_cached_as_demo_patients
    e user_token db now_read now_store s :
  Forall
    (λ fetch : string * (Connection → option string → Database → Q → Q →
                         Session → WrapperRun),
       get_cached_data now_read (cache_key_of fetch.1 s) s = None →
       let first :=
         fetch.2 (Unreachable e) user_token db now_read now_store s in
       first
       = {| returned := Returned generate_demo_data;
            session_after :=
              set_cached_data now_store (cache_key_of fetch.1 s)
                generate_demo_data s;
            func_invoked := true; error_shown := None |}
       ∧ ∀ conn' user_token' db' now_read' now_store',
           (now_read' - now_store < CACHE_EXPIRY)%Q →
           fetch.2 conn' user_token' db' now_read' now_store'
             (session_after first)
           = {| returned := Returned generate_demo_data;
                session_after := session_after first;
                func_invoked := false; error_shown := None |})
    [("fetch_patient_data", fetch_patient_data);
     ("fetch_quality_data", fetch_quality_data);
     ("fetch_duplicate_data", fetch_duplicate_data);
     ("fetch_golden_records", fetch_golden_records)].
Proof.
  assert (∀ func_name body,
    (∀ conn user_token db s,
       conn = Unreachable e →
       body conn user_token db s = Returned generate_demo_data) →
    get_cached_data now_read (cache_key_of func_name s) s = None →
    let first_run :=
      async_query_wrapper func_name (body (Unreachable e) user_token db)
        now_read now_store s in
    first_run
    = {| returned := Returned generate_demo_data;
         session_after :=
           set_cached_data now_store (cache_key_of func_name s)
             generate_demo_data s;
         func_invoked := true; error_shown := None |}
    ∧ ∀ conn' user_token' db' now_read' now_store',
        (now_read' - now_store < CACHE_EXPIRY)%Q →
        async_query_wrapper func_name (body conn' user_token' db')
          now_read' now_store' (session_after first_run)
        = {| returned := Returned generate_demo_data;
             session_after := session_after first_run;
             func_invoked := false; error_shown := None |}) as Hrun.
  { intros func_name body Hbody Hmiss first_run.
    destruct (demo_result_is_cached func_name
                (body (Unreachable e) user_token db) now_read now_store s
                Hmiss (Hbody _ _ _ _ eq_refl)) as [Hfirst Hnext].
    split; [exact Hfirst|]. intros conn' user_token' db'. apply Hnext. }
  repeat apply Forall_cons_2; [..|apply Forall_nil_2];
    (apply Hrun; intros conn token db0 s0 ->;
     cbv [fetch_patient_data_body fetch_quality_data_body
          fetch_duplicate_data_body fetch_golden_records_body];
     by rewrite sql_query_unreachable).
Qed.
End more_cache_facts.

Lemma connection_failure_is_cached_as_demo_patients_witness :
  returned
    (fetch_quality_data (H:=agreeable_model) (Unreachable "timeout") None
       (one_record_db "pending") 0 1 initial_session)
  = Returned generate_demo_data.
Proof.
  pose proof (connection_failure_is_cached_as_demo_patients
    (H:=agreeable_model) "timeout" None (one_record_db "pending") 0%Q 1%Q
    initial_session) as Hall.
  apply Forall_cons_1 in Hall as [_ Hall].
  apply Forall_cons_1 in Hall as [Hquality _].
  destruct (Hquality eq_refl) as [Hfirst _].
  exact (f_equal returned Hfirst).
Defined.

(** ** What the decorated functions return *)

Lemma patient_order_total t1 t2 :
  patient_order t1 t2 = true ∨ patient_order t2 t1 = true.
Proof. unfold patient_order. lia. Qed.

Lemma patient_order_trans t1 t2 t3 :
  patient_order t1 t2 = true → patient_order t2 t3 = true →
  patient_order t1 t3 = true.
Proof. unfold patient_order. lia. Qed.

Lemma created_order_total r1 r2 :
  created_order r1 r2 = true ∨ created_order r2 r1 = true.
Proof.
  unfold created_order, desc_time.
  destruct (created_at_of r1) as [a|], (created_at_of r2) as [b|]; auto.
  destruct (Qlt_le_dec a b) as [Hlt|Hle].
  - right. by apply Qle_bool_iff, Qlt_le_weak.
  - left. by apply Qle_bool_iff.
Qed.

Lemma created_order_trans r1 r2 r3 :
  created_order r1 r2 = true → created_order r2 r3 = true →
  created_order r1 r3 = true.
Proof.
  unfold created_order, desc_time.
  destruct (created_at_of r1) as [a|], (created_at_of r2) as [b|],
    (created_at_of r3) as [c|]; try done.
  rewrite !Qle_bool_iff. intros Hba Hcb. by eapply Qle_trans.
Qed.

(** X4.  With the warehouse connected and nothing valid in the cache,
    [fetch_patient_data] runs its query, returns every record of the patient
    table once, in ascending order of the patient id, and stores that frame
    under its key. *)
Theorem fetch_patient_data_returns_the_table_by_id
    user_token db now_read now_store s :
  get_cached_data now_read (cache_key_of "fetch_patient_data" s) s = None →
  ∃ rows,
    fetch_patient_data Connected user_token db now_read now_store s
    = {| returned := Returned (PatientFrame rows);
         session_after :=
           set_cached_data now_store (cache_key_of "fetch_patient_data" s)
             (PatientFrame rows) s;
         func_invoked := true; error_shown := None |}
    ∧ rows ≡ₚ patients db
    ∧ ordered (λ t1 t2, (patient_id t1 <=? patient_id t2)%Z) rows.
Proof.
  intros Hmiss. exists (order_by patient_order (patients db)).
  split; [|split].
  - apply wrapper_miss; [done|].
    unfold fetch_patient_data_body. by rewrite sql_query_connected.
  - apply order_by_perm.
  - apply (order_by_ordered patient_order);
      [apply patient_order_total|apply patient_order_trans].
Qed.

(** X5.  With the warehouse connected and nothing valid in the cache,
    [fetch_golden_records] returns every row of the golden table once, the
    newest first (rows without a creation time last).  A later call within
    the expiry time returns the same frame whatever the golden table has
    become: records generated and decisions taken in between are not in
    it. *)
Theorem fetch_golden_records_newest_first_and_stale
    user_token db now_read now_store s :
  get_cached_data now_read (cache_key_of "fetch_golden_records" s) s = None →
  ∃ rows,
    returned (fetch_golden_records Connected user_token db now_read now_store s)
    = Returned (GoldenFrame rows)
    ∧ rows ≡ₚ golden_records db
    ∧ ordered (λ r1 r2, desc_time (created_at_of r1) (created_at_of r2)) rows
    ∧ ∀ conn' user_token' db' now_read' now_store',
        (now_read' - now_store < CACHE_EXPIRY)%Q →
        let later :=
          fetch_golden_records conn' user_token' db' now_read' now_store'
            (session_after
               (fetch_golden_records Connected user_token db now_read
                  now_store s)) in
        returned later = Returned (GoldenFrame rows)
        ∧ func_invoked later = false.
Proof.
  intros Hmiss. exists (order_by created_order (golden_records db)).
  assert (fetch_golden_records Connected user_token db now_read now_store s
    = {| returned :=
           Returned (GoldenFrame (order_by created_order (golden_records db)));
         session_after :=
           set_cached_data now_store (cache_key_of "fetch_golden_records" s)
             (GoldenFrame (order_by created_order (golden_records db))) s;
         func_invoked := true; error_shown := None |}) as Hfirst.
  { apply wrapper_miss; [done|].
    unfold fetch_golden_records_body. by rewrite sql_query_connected. }
  rewrite Hfirst. split; [done|split; [|split]].
  - apply order_by_perm.
  - apply (order_by_ordered created_order);
      [apply created_order_total|apply created_order_trans].
  - intros conn' user_token' db' now_read' now_store' Hage later.
    unfold later, fetch_golden_records.
    erewrite wrapper_hit; [done|].
    cbn [session_after]. by apply get_cached_data_stored.
Qed.
Lemma fetch_patient_data_returns_the_table_by_id_witness :
  ∃ rows,
    returned
      (fetch_patient_data Connected None
         {| patients := [jon; john; j_smith]; golden_records := [];
            next_identity := 1 |} 0 0 initial_session)
    = Returned (PatientFrame rows)
    ∧ rows ≡ₚ [jon; john; j_smith].
Proof.
  destruct (fetch_patient_data_returns_the_table_by_id
              None
              {| patients := [jon; john; j_smith]; golden_records := [];
                 next_identity := 1 |} 0%Q 0%Q initial_session eq_refl)
    as (rows & Hrun & Hperm & _).
  exists rows. split; [exact (f_equal returned Hrun)|exact Hperm].
Defined.

Lemma fetch_golden_records_newest_first_and_stale_witness :
  ∃ rows,
    returned
      (fetch_golden_records Connected None
         (one_record_db "pending") 0 0 initial_session)
    = Returned (GoldenFrame rows)
    ∧ rows ≡ₚ golden_records (one_record_db "pending").
Proof.
  destruct (fetch_golden_records_newest_first_and_stale
              None (one_record_db "pending") 0%Q 0%Q initial_session eq_refl)
    as (rows & Hrun & Hperm & _).
  exists rows. split; [exact Hrun|exact Hperm].
Defined.

(** ** Loading the data of a page *)

Lemma cache_keys_differ f1 f2 s1 s2 :
  f1 ∈ decorated_functions → f2 ∈ decorated_functions → f1 ≠ f2 →
  cache_key_of f1 s1 ≠ cache_key_of f2 s2.
Proof.
  intros H1 H2 Hne Hkey. by apply Hne, (decorated_keys_differ f1 f2 s1 s2).
Qed.

Lemma get_cached_data_clear now cache_key s :
  get_cached_data now cache_key (clear_cache s) = None.
Proof. unfold get_cached_data, is_cache_valid. simpl. by rewrite lookup_empty. Qed.

Ltac other_key :=
  rewrite get_cached_data_other
    by (apply cache_keys_differ; [compute_done|compute_done|done]).

Ltac stored_key :=
  repeat change (cache_key_of ?f (set_cached_data ?t ?k ?d ?s))
           with (cache_key_of f s);
  change (cache_key_of ?f (clear_cache ?s)) with (cache_key_of f s);
  repeat other_key;
  apply get_cached_data_stored; assumption.

Section main_facts.
Context `{AiFunctions}.

(** A run of [main] that finds the frames the page needs in the cache. *)
Lemma load_page_data_cached
    conn user_token db page clock s patients_frame quality_frame
    duplicate_frame :
  get_cached_data (patient_read clock) (cache_key_of "fetch_patient_data" s) s
  = Some patients_frame →
  (needs_quality page = true →
   get_cached_data (quality_read clock) (cache_key_of "fetch_quality_data" s) s
   = Some quality_frame) →
  (needs_duplicates page = true →
   get_cached_data (duplicate_read clock)
     (cache_key_of "fetch_duplicate_data" s) s
   = Some duplicate_frame) →
  load_page_data conn user_token db page clock s
  = {| patient_data := patients_frame;
       quality_data :=
         if needs_quality page then quality_frame
         else generate_demo_quality_data;
       duplicate_data :=
         if needs_duplicates page then duplicate_frame else EmptyFrame;
       session_loaded := s;
       loaders_run := [] |}.
Proof.
  intros Hpatient Hquality Hduplicate.
  unfold load_page_data, fetch_patient_data, fetch_quality_data,
    fetch_duplicate_data.
  rewrite (wrapper_hit "fetch_patient_data" _ _ _ _ _ Hpatient).
  cbn [session_after].
  destruct (needs_quality page).
  - rewrite (wrapper_hit "fetch_quality_data" _ _ _ _ _ (Hquality eq_refl)).
    cbn [session_after].
    destruct (needs_duplicates page).
    + by rewrite (wrapper_hit "fetch_duplicate_data" _ _ _ _ _
                    (Hduplicate eq_refl)).
    + done.
  - cbn [session_after].
    destruct (needs_duplicates page).
    + by rewrite (wrapper_hit "fetch_duplicate_data" _ _ _ _ _
                    (Hduplicate eq_refl)).
    + done.
Qed.

(** A run of [main] on an empty cache. *)
Lemma load_page_data_cleared conn user_token db page clock s :
  ∃ patients_frame quality_frame duplicate_frame,
    let s1 :=
      set_cached_data (patient_store clock)
        (cache_key_of "fetch_patient_data" s) patients_frame (clear_cache s) in
    let s2 :=
      if needs_quality page
      then set_cached_data (quality_store clock)
             (cache_key_of "fetch_quality_data" s) quality_frame s1
      else s1 in
    let s3 :=
      if needs_duplicates page
      then set_cached_data (duplicate_store clock)
             (cache_key_of "fetch_duplicate_data" s) duplicate_frame s2
      else s2 in
    load_page_data conn user_token db page clock (clear_cache s)
    = {| patient_data := patients_frame;
         quality_data :=
           if needs_quality page then quality_frame
           else generate_demo_quality_data;
         duplicate_data :=
           if needs_duplicates page then duplicate_frame else EmptyFrame;
         session_loaded := s3;
         loaders_run :=
           ["fetch_patient_data"]
           ++ (if needs_quality page then ["fetch_quality_data"] else [])
           ++ (if needs_duplicates page then ["fetch_duplicate_data"] else [])
      |}.
Proof.
  unfold load_page_data, fetch_patient_data, fetch_quality_data,
    fetch_duplicate_data.
  eexists _, _, _.
  rewrite (wrapper_miss "fetch_patient_data" _ _ _ _ _
             (get_cached_data_clear _ _ _) eq_refl).
  cbn [session_after].
  destruct (needs_quality page).
  - erewrite (wrapper_miss "fetch_quality_data");
      [|other_key; apply get_cached_data_clear|reflexivity].
    cbn [session_after].
    destruct (needs_duplicates page).
    + erewrite (wrapper_miss "fetch_duplicate_data");
        [|do 2 other_key; apply get_cached_data_clear|reflexivity].
      reflexivity.
    + reflexivity.
  - cbn [session_after].
    destruct (needs_duplicates page).
    + erewrite (wrapper_miss "fetch_duplicate_data");
        [|other_key; apply get_cached_data_clear|reflexivity].
      reflexivity.
    + reflexivity.
Qed.

(** X6.  After the cache has been cleared (the sidebar's refresh button),
    the loading part of [main], which comes before the page is shown, runs
    the wrapped function of [fetch_patient_data] and, where the page needs
    them, of [fetch_quality_data] and [fetch_duplicate_data].  In a second
    run of the same page within the expiry time of each stored frame the
    loading part runs none of the three: it hands the page the same three
    frames from the cache, whatever the connection and the tables are by
    then, and leaves the configuration and the two cache dictionaries as
    they were.  The statements a page sends itself, as the stewardship page
    does, are not part of the loading. *)
Theorem reload_within_expiry_loads_from_the_cache
    conn conn' user_token user_token' db db' page clock clock' s :
  (patient_read clock' - patient_store clock < CACHE_EXPIRY)%Q →
  (quality_read clock' - quality_store clock < CACHE_EXPIRY)%Q →
  (duplicate_read clock' - duplicate_store clock < CACHE_EXPIRY)%Q →
  let loaded := load_page_data conn user_token db page clock (clear_cache s) in
  let again :=
    load_page_data conn' user_token' db' page clock' (session_loaded loaded) in
  loaders_run loaded
  = ["fetch_patient_data"]
    ++ (if needs_quality page then ["fetch_quality_data"] else [])
    ++ (if needs_duplicates page then ["fetch_duplicate_data"] else [])
  ∧ loaders_run again = []
  ∧ patient_data again = patient_data loaded
  ∧ quality_data again = quality_data loaded
  ∧ duplicate_data again = duplicate_data loaded
  ∧ session_loaded again = session_loaded loaded.
Proof.
  intros Hpatient Hquality Hduplicate loaded again.
  destruct (load_page_data_cleared conn user_token db page clock s)
    as (patients_frame & quality_frame & duplicate_frame & Hloaded).
  cbv zeta in Hloaded. unfold again, loaded. rewrite Hloaded.
  cbn [session_loaded loaders_run patient_data quality_data duplicate_data].
  split; [done|].
  rewrite (load_page_data_cached conn' user_token' db' page clock' _
             patients_frame quality_frame duplicate_frame); [done|..];
    destruct page; cbn [needs_quality needs_duplicates]; try discriminate;
    intros; stored_key.
Qed.
End main_facts.

Lemma reload_within_expiry_loads_from_the_cache_witness :
  loaders_run
    (load_page_data (H:=agreeable_model) (Unreachable "down") None
       (one_record_db "pending") Overview
       {| patient_read := 100; patient_store := 101; quality_read := 102;
          quality_store := 103; duplicate_read := 104;
          duplicate_store := 105 |}
       (session_loaded
          (load_page_data (H:=agreeable_model) Connected None
             (one_record_db "pending") Overview
             {| patient_read := 0; patient_store := 1; quality_read := 2;
                quality_store := 3; duplicate_read := 4;
                duplicate_store := 5 |}
             (clear_cache initial_session))))
  = [].
Proof.
  apply (reload_within_expiry_loads_from_the_cache (H:=agreeable_model)
           Connected (Unreachable "down") None None (one_record_db "pending")
           (one_record_db "pending") Overview
           {| patient_read := 0; patient_store := 1; quality_read := 2;
              quality_store := 3; duplicate_read := 4; duplicate_store := 5 |}
           {| patient_read := 100; patient_store := 101; quality_read := 102;
              quality_store := 103; duplicate_read := 104;
              duplicate_store := 105 |}
           initial_session);
    reflexivity.
Defined.

(** ** Decisions when the warehouse cannot be reached *)

Section unreachable_facts.
Context `{AiFunctions}.

(** X18.  When the warehouse cannot be reached the query function catches the
    error, so no stewardship function sees it: [generate_golden_records] and
    both update functions return [True] and the tables stay as they were,
    and the review page reports an approval, and a rejection with comments,
    as done. *)
Theorem unreachable_warehouse_is_reported_as_success
    e now s user_token db :
  generate_golden_records (Unreachable e) now user_token s db
  = (true,
     {| frame := generate_demo_data; database_after := db;
        connection_error := Some ("Database connection error: " +:+ e) |})
  ∧ (∀ record_id status comments approved_by,
       update_golden_record_status (Unreachable e) now s record_id status
         comments approved_by user_token db
       = (true,
          {| frame := generate_demo_data; database_after := db;
             connection_error :=
               Some ("Database connection error: " +:+ e) |}))
  ∧ (∀ record_id updated_data status comments approved_by,
       update_golden_record_with_steward_edits (Unreachable e) now s
         record_id updated_data status comments approved_by user_token db
       = (true,
          {| frame := generate_demo_data; database_after := db;
             connection_error :=
               Some ("Database connection error: " +:+ e) |}))
  ∧ (∀ record_id edited_value comments steward_name,
       decision_buttons (Unreachable e) now s record_id edited_value comments
         steward_name user_token ClickApprove db
       = {| shown := StSuccess "Golden record approved with your edits!";
            ui_database := db |})
  ∧ (∀ record_id edited_value comments steward_name,
       comments ≠ "" →
       decision_buttons (Unreachable e) now s record_id edited_value comments
         steward_name user_token ClickReject db
       = {| shown := StSuccess "Record rejected!"; ui_database := db |}).
Proof.
  split; [|split; [|split; [|split]]].
  - unfold generate_golden_records. by rewrite sql_query_unreachable.
  - intros. unfold update_golden_record_status.
    by rewrite sql_query_unreachable.
  - intros. unfold update_golden_record_with_steward_edits.
    by rewrite sql_query_unreachable.
  - intros. unfold decision_buttons, update_golden_record_with_steward_edits.
    by rewrite sql_query_unreachable.
  - intros record_id edited_value comments steward_name Hne.
    unfold decision_buttons, update_golden_record_status.
    rewrite bool_decide_eq_false_2 by done.
    by rewrite sql_query_unreachable.
Qed.
End unreachable_facts.

Lemma unreachable_warehouse_is_reported_as_success_witness :
  decision_buttons (Unreachable "timeout") 5 initial_session 1 (λ _, "")
    "duplicate of 7" "Data Steward" None ClickReject (one_record_db "pending")
  = {| shown := StSuccess "Record rejected!";
       ui_database := one_record_db "pending" |}.
Proof.
  apply (unreachable_warehouse_is_reported_as_success (H:=agreeable_model)
           "timeout" 5%Q initial_session None (one_record_db "pending")).
  discriminate.
Defined.

(** ** What no update changes *)

Lemma apply_cells_snoc cells c row :
  apply_cells (cells ++ [c]) row = <[c.1 := c.2]> (apply_cells cells row).
Proof. unfold apply_cells. by rewrite foldl_app. Qed.

Lemma apply_cells_other cells row col :
  col ∉ cells.*1 → apply_cells cells row !! col = row !! col.
Proof.
  induction cells as [|c cells IH] using rev_ind; [done|].
  rewrite fmap_app, not_elem_of_app. intros [Hcells Hc].
  rewrite apply_cells_snoc, lookup_insert_ne; [by apply IH|].
  intros Heq. apply Hc. simpl. rewrite Heq. apply list_elem_of_singleton. done.
Qed.

Lemma execute_update_keeps_ids golden_ref now text db df db' :
  execute_update golden_ref now text db = Returned (df, db') →
  patients db' = patients db
  ∧ next_identity db' = next_identity db
  ∧ golden_record_id <$> golden_records db'
    = golden_record_id <$> golden_records db.
Proof.
  unfold execute_update. destruct (parse_update text) as [stmt|]; [|done].
  case_bool_decide as Htarget; [|done].
  case_bool_decide as Hok; [|done].
  destruct (mapM (store_cell now) (assignments stmt)) as [cells|] eqn:Hcells;
    [|done].
  intros [= <- <-]. simpl.
  split; [done|split; [done|]].
  rewrite <-list_fmap_compose. apply list_fmap_ext. intros i row _. simpl.
  case_bool_decide; [|done].
  unfold golden_record_id. rewrite apply_cells_other; [done|].
  rewrite (store_cell_columns _ _ _ Hcells).
  destruct Hok as [Hcols _]. intros Hin.
  apply list_elem_of_fmap in Hin as (a & Ha & Hin).
  apply (proj1 (Forall_forall _ _) Hcols a Hin). done.
Qed.

Lemma sql_query_update_keeps_ids conn golden_ref now text user_token db :
  let db' := database_after (sql_query conn (execute_update golden_ref now text)
                               user_token db) in
  patients db' = patients db
  ∧ next_identity db' = next_identity db
  ∧ golden_record_id <$> golden_records db'
    = golden_record_id <$> golden_records db.
Proof.
  destruct conn as [|e]; [|by rewrite sql_query_unreachable].
  rewrite sql_query_connected.
  destruct (execute_update golden_ref now text db) as [[df db']|err] eqn:Hrun;
    [|done].
  simpl. by eapply execute_update_keeps_ids.
Qed.

(** X16.  Whatever the connection and whatever texts are spliced into the
    statement, also texts with quotes in them, neither update function adds
    or removes a golden row, changes the id of one, or touches the patient
    table or the identity counter. *)
Theorem updates_keep_the_rows_and_their_ids
    conn now s record_id status comments approved_by user_token db :
  (let db' :=
     database_after
       (update_golden_record_status conn now s record_id status comments
          approved_by user_token db).2 in
   patients db' = patients db
   ∧ next_identity db' = next_identity db
   ∧ length (golden_records db') = length (golden_records db)
   ∧ golden_record_id <$> golden_records db'
     = golden_record_id <$> golden_records db)
  ∧ (∀ updated_data,
       let db' :=
         database_after
           (update_golden_record_with_steward_edits conn now s record_id
              updated_data status comments approved_by user_token db).2 in
       patients db' = patients db
       ∧ next_identity db' = next_identity db
       ∧ length (golden_records db') = length (golden_records db)
       ∧ golden_record_id <$> golden_records db'
         = golden_record_id <$> golden_records db).
Proof.
  split; [|intros updated_data]; intros db'; unfold db';
    unfold update_golden_record_status,
      update_golden_record_with_steward_edits; cbn [snd];
    match goal with
    | |- context [sql_query conn (execute_update ?ref now ?text)
                    user_token db] =>
        destruct (sql_query_update_keeps_ids conn ref now text user_token db)
          as (Hp & Hn & Hids)
    end;
    (split; [done|split; [done|split; [|done]]]);
    apply (f_equal length) in Hids; by rewrite !length_fmap in Hids.
Qed.

(** ** The ids of the golden table *)

Lemma identities_fresh_alt db :
  identities_fresh db
  ↔ Forall (λ id, ∃ n, id = Some n ∧ (n < next_identity db)%Z)
      (golden_record_id <$> golden_records db)
    ∧ NoDup (golden_record_id <$> golden_records db).
Proof. unfold identities_fresh. by rewrite Forall_fmap. Qed.

Section identity_facts.
Context `{AiFunctions}.

Lemma insert_golden_records_ids model now db :
  ∃ db',
    insert_golden_records model now db = Returned (EmptyFrame, db')
    ∧ (next_identity db ≤ next_identity db')%Z
    ∧ ∃ count : nat,
        next_identity db' = (next_identity db + Z.of_nat count)%Z
        ∧ golden_record_id <$> golden_records db'
          = (golden_record_id <$> golden_records db)
            ++ ((λ i : nat, Some (next_identity db + Z.of_nat i)%Z)
                  <$> seq 0 count).
Proof.
  eexists. split; [reflexivity|]. simpl. split; [lia|].
  exists (length (high_confidence_matches model (patients db))).
  rewrite length_imap. split; [done|].
  rewrite fmap_app. f_equal.
  apply list_eq. intros i.
  rewrite !list_lookup_fmap, list_lookup_imap.
  destruct (high_confidence_matches model (patients db) !! i) as [p|] eqn:Hp.
  - rewrite lookup_seq_lt by (by eapply lookup_lt_Some). simpl.
    by destruct (golden_insert_row_columns model now
                   (next_identity db + Z.of_nat i) p) as (_ & _ & ->).
  - rewrite lookup_seq_ge by (by apply lookup_ge_None). done.
Qed.

(** X12.  The ids of the golden table stay distinct and below the identity
    counter: [generate_golden_records] gives the rows it appends the next
    ids, also when it is run again on the same patients, and neither update
    function changes an id. *)
Theorem golden_record_ids_stay_distinct conn now s user_token db :
  identities_fresh db →
  identities_fresh
    (database_after (generate_golden_records conn now user_token s db).2)
  ∧ (∀ record_id status comments approved_by,
       identities_fresh
         (database_after
            (update_golden_record_status conn now s record_id status comments
               approved_by user_token db).2))
  ∧ (∀ record_id updated_data status comments approved_by,
       identities_fresh
         (database_after
            (update_golden_record_with_steward_edits conn now s record_id
               updated_data status comments approved_by user_token db).2)).
Proof.
  intros Hfresh. split; [|split].
  - unfold generate_golden_records. cbn [snd].
    destruct conn as [|e]; [|by rewrite sql_query_unreachable].
    rewrite sql_query_connected.
    destruct (insert_golden_records_ids (get_ai_model_name s) now db)
      as (db' & -> & Hle & count & Hnext & Hids).
    cbn [database_after].
    apply identities_fresh_alt in Hfresh as [Hbelow Hnd].
    apply identities_fresh_alt. rewrite Hids. split.
    + apply Forall_app. split.
      * eapply Forall_impl; [exact Hbelow|].
        intros id (n & -> & Hn). exists n. split; [done|lia].
      * apply Forall_fmap, Forall_forall. intros i Hi%elem_of_seq. simpl.
        eexists. split; [done|lia].
    + apply NoDup_app. split; [done|split].
      * intros id Hold Hnew.
        apply (proj1 (Forall_forall _ _) Hbelow) in Hold as (n & -> & Hn).
        apply list_elem_of_fmap in Hnew as (i & [= ->] & _). lia.
      * apply NoDup_fmap_2; [|apply NoDup_seq].
        intros i j [= Hij]. lia.
  - intros record_id status comments approved_by.
    unfold update_golden_record_status. cbn [snd].
    match goal with
    | |- context [sql_query conn (execute_update ?ref now ?text)
                    user_token db] =>
        destruct (sql_query_update_keeps_ids conn ref now text user_token db)
          as (_ & Hn & Hids)
    end.
    apply identities_fresh_alt. rewrite Hids, Hn.
    by apply identities_fresh_alt.
  - intros record_id updated_data status comments approved_by.
    unfold update_golden_record_with_steward_edits. cbn [snd].
    match goal with
    | |- context [sql_query conn (execute_update ?ref now ?text)
                    user_token db] =>
        destruct (sql_query_update_keeps_ids conn ref now text user_token db)
          as (_ & Hn & Hids)
    end.
    apply identities_fresh_alt. rewrite Hids, Hn.
    by apply identities_fresh_alt.
Qed.
End identity_facts.

Lemma golden_record_ids_stay_distinct_witness :
  identities_fresh (one_record_db "pending")
  ∧ identities_fresh
      (database_after
         (generate_golden_records (H:=agreeable_model) Connected 7 None
            initial_session (one_record_db "pending")).2).
Proof.
  assert (identities_fresh (one_record_db "pending")) as Hfresh.
  { split.
    - repeat constructor. exists 1%Z. split; [reflexivity|reflexivity].
    - vm_compute. apply NoDup_singleton. }
  split; [exact Hfresh|].
  apply (golden_record_ids_stay_distinct (H:=agreeable_model) Connected 7%Q
           initial_session None (one_record_db "pending") Hfresh).
Defined.

(** ** Decisions with plain texts *)

Lemma update_golden_record_status_frame_witness :
  patients
    (database_after
       (update_golden_record_status Connected 5 initial_session 1 "rejected"
          "duplicate of 7" "Data Steward" None (one_record_db "pending")).2)
  = patients (one_record_db "pending").
Proof.
  apply (update_golden_record_status_frame 5%Q initial_session 1 "rejected"
           "duplicate of 7" "Data Steward" None (one_record_db "pending"));
    [reflexivity..|lia].
Defined.

Lemma apply_cells_lookup cells row col cell :
  NoDup cells.*1 → (col, cell) ∈ cells →
  apply_cells cells row !! col = Some cell.
Proof.
  induction cells as [|c cells IH] using rev_ind; [by intros _ ?%elem_of_nil|].
  rewrite fmap_app. intros [Hnd [Hfresh _]]%NoDup_app Hin.
  rewrite apply_cells_snoc.
  apply elem_of_app in Hin as [Hin|Hin%list_elem_of_singleton].
  - rewrite lookup_insert_ne; [by apply IH|].
    intros Heq. apply (Hfresh col).
    + apply list_elem_of_fmap. by exists (col, cell).
    + simpl. rewrite Heq. by apply list_elem_of_singleton.
  - subst c. apply lookup_insert_eq.
Qed.

Lemma edit_cell_fields (updated_data : list (string * option string)) :
  (edit_cell <$> updated_data).*1 = updated_data.*1.
Proof.
  induction updated_data as [|item updated_data IH]; [done|].
  rewrite !fmap_cons, IH. done.
Qed.

(** X17.  An approval writes the sixteen merged fields as the steward left
    them in the form, a field left empty as NULL and a value with quotes in
    it as it was typed; the record is then approved in the steward's name.
    This holds with the warehouse connected, a golden table reference made
    of letters, digits, underscores and dots, a record id that is not
    negative, values without a backslash, a date of birth that is left
    empty or is a day of the calendar written [yyyy-mm-dd] (the column is
    a date column), and comments and a name without quote or backslash. *)
Theorem approved_edits_are_stored_as_typed
    now s record_id edited_value comments steward_name user_token db :
  word_text (get_table_reference "golden" s) = true →
  (∀ field_key, no_backslash (edited_value field_key) = true) →
  edited_value "date_of_birth" = ""
  ∨ is_Some (parse_date (edited_value "date_of_birth")) →
  plain comments = true → plain steward_name = true →
  (0 ≤ record_id)%Z →
  let db' :=
    ui_database
      (decision_buttons Connected now s record_id edited_value comments
         steward_name user_token ClickApprove db) in
  ∀ (i : nat) row,
    golden_records db !! i = Some row →
    golden_record_id row = Some record_id →
    ∃ row',
      golden_records db' !! i = Some row'
      ∧ (∀ field_key,
           field_key ∈ golden_fields →
           row' !! field_key
           = Some (if bool_decide (edited_value field_key = "") then VNull
                   else VText (edited_value field_key)))
      ∧ row' !! "steward_status" = Some (VText "approved")
      ∧ row' !! "approved_by" = Some (VText steward_name).
Proof.
  intros Htable Hedits Hdate Hcomments Hname Hid db' i row Hrow Hrid.
  destruct (updated_golden_record_is_well_formed edited_value Hedits)
    as (Hne & Hall & Hnd).
  assert (∀ value,
    ("date_of_birth", Some value) ∈ updated_golden_record edited_value →
    is_Some (parse_date value)) as Hdates.
  { intros value Hin. unfold updated_golden_record in Hin.
    apply list_elem_of_fmap in Hin as (field_key & Heq & _).
    injection Heq as <- Hvalue.
    case_bool_decide as Hempty; [done|]. injection Hvalue as ->.
    by destruct Hdate. }
  unfold db', decision_buttons.
  rewrite update_golden_record_with_steward_edits_plain; try done;
    [|by case_bool_decide].
  cbn [ui_database database_after update_rows golden_records].
  rewrite list_lookup_fmap, Hrow. cbn [fmap option_fmap option_map].
  rewrite bool_decide_eq_true_2 by done.
  eexists. split; [reflexivity|split; [|split]].
  - intros field_key Hfield.
    rewrite decided_other_columns
      by by destruct (golden_field_is_settable _ Hfield) as (_ & _ & ?).
    apply apply_cells_lookup.
    + by rewrite edit_cell_fields.
    + unfold updated_golden_record. rewrite <-list_fmap_compose.
      apply list_elem_of_fmap. exists field_key. split; [|done].
      unfold edit_cell. simpl. by case_bool_decide.
  - apply decided_status.
  - unfold decided. rewrite !lookup_insert_ne by done. apply lookup_insert_eq.
Qed.

Lemma approved_edits_are_stored_as_typed_witness :
  ∃ row',
    golden_records
      (ui_database
         (decision_buttons Connected 5 initial_session 1
            (λ field_key,
               if bool_decide (field_key = "patient_name") then "Rory O'Brien"
               else if bool_decide (field_key = "date_of_birth")
                    then "1980-02-29" else "")
            "" "Data Steward" None ClickApprove (one_record_db "pending")))
    !! 0%nat = Some row'
    ∧ row' !! "patient_name" = Some (VText "Rory O'Brien")
    ∧ row' !! "date_of_birth" = Some (VText "1980-02-29")
    ∧ row' !! "gender" = Some VNull.
Proof.
  destruct (approved_edits_are_stored_as_typed 5%Q initial_session 1
              (λ field_key,
                 if bool_decide (field_key = "patient_name")
                 then "Rory O'Brien"
                 else if bool_decide (field_key = "date_of_birth")
                      then "1980-02-29" else "")
              "" "Data Steward" None (one_record_db "pending"))
    with (i := 0%nat) (row := golden_row_of 1 "John Smith" "pending")
    as (row' & Hrow & Hfields & _).
  - reflexivity.
  - intros field_key. by repeat case_bool_decide.
  - right. vm_compute. by eexists.
  - reflexivity.
  - reflexivity.
  - lia.
  - reflexivity.
  - reflexivity.
  - exists row'. split; [exact Hrow|split; [|split]].
    + apply (Hfields "patient_name"). compute_done.
    + apply (Hfields "date_of_birth"). compute_done.
    + apply (Hfields "gender"). compute_done.
Defined.

(** ** The source records of a golden record *)

Lemma parse_signed_pretty (z : Z) : parse_signed (pretty z) = Some z.
Proof.
  destruct z as [|p|p].
  - done.
  - pose proof (parse_integer_pretty (Z.pos p) ltac:(lia)) as Hparse.
    unfold parse_signed. destruct (pretty (Z.pos p)) as [|c rest]; [done|].
    case_bool_decide as Hc; [|done]. by subst c.
  - pose proof (parse_integer_pretty (Z.pos p) ltac:(lia)) as Hparse.
    change (pretty (Z.neg p)) with (String "-"%char (pretty (Z.pos p))).
    unfold parse_signed. rewrite bool_decide_eq_true_2 by done.
    by rewrite Hparse.
Qed.

Lemma two_elements_length {A} (l : list A) x y :
  x ∈ l → y ∈ l → x ≠ y → (2 ≤ length l)%nat.
Proof.
  destruct l as [|a [|b l]]; simpl; [by intros ?%elem_of_nil| |lia].
  intros ->%list_elem_of_singleton ->%list_elem_of_singleton. done.
Qed.

Lemma fetch_source_patient_records_pair a b user_token db :
  fetch_source_patient_records Connected (pretty a +:+ "," +:+ pretty b)
    user_token db
  = PatientFrame
      (order_by patient_order
         (filter (λ t, patient_id t ∈ [a; b]) (patients db))).
Proof.
  unfold fetch_source_patient_records.
  rewrite sql_query_connected, split_source_ids. simpl.
  by rewrite !parse_signed_pretty.
Qed.

Section source_facts.
Context `{AiFunctions}.

(** X13.  The source ids that [generate_golden_records] writes into a golden row
    are read back by [fetch_source_patient_records]: for the row of a pair of
    patients it returns, by id, exactly the patients of the table with one
    of the two ids, so at least the two of the pair, and the review
    interface gets to its buttons. *)
Theorem generated_record_finds_its_source_records
    model now identity p conn now' s edited_value comments steward_name
    user_token click db :
  p ∈ cross_join_lt (patients db) →
  let record := golden_insert_row model now identity p in
  ∃ ids rows,
    record !! "source_patient_ids" = Some (VText ids)
    ∧ fetch_source_patient_records Connected ids user_token db
      = PatientFrame rows
    ∧ (∀ t, t ∈ rows
            ↔ t ∈ patients db
              ∧ (patient_id t = patient_id p.1
                 ∨ patient_id t = patient_id p.2))
    ∧ ordered (λ t1 t2, (patient_id t1 <=? patient_id t2)%Z) rows
    ∧ (2 ≤ length rows)%nat
    ∧ show_enhanced_stewardship_interface Connected conn now' s record
        edited_value comments steward_name user_token click db
      = decision_buttons conn now' s identity edited_value comments
          steward_name user_token click db.
Proof.
  intros Hp record. destruct p as [t1 t2].
  apply elem_of_cross_join_lt in Hp as (H1 & H2 & Hlt).
  destruct (golden_insert_row_columns model now identity (t1, t2))
    as (_ & Hids & Hrid).
  fold record in Hids, Hrid. cbn [fst snd] in *.
  set (rows := order_by patient_order
                 (filter (λ t, patient_id t ∈ [patient_id t1; patient_id t2])
                    (patients db))).
  assert (∀ t, t ∈ rows
               ↔ t ∈ patients db
                 ∧ (patient_id t = patient_id t1
                    ∨ patient_id t = patient_id t2)) as Hrows.
  { intros t. unfold rows. rewrite order_by_perm, list_elem_of_filter.
    rewrite !elem_of_cons, elem_of_nil. tauto. }
  assert (2 ≤ length rows)%nat as Hlen.
  { apply (two_elements_length rows t1 t2).
    - apply Hrows. auto.
    - apply Hrows. auto.
    - intros ->. lia. }
  eexists _, rows. split; [exact Hids|].
  split; [apply fetch_source_patient_records_pair|].
  split; [exact Hrows|split; [|split; [exact Hlen|]]].
  - apply (order_by_ordered patient_order);
      [apply patient_order_total|apply patient_order_trans].
  - unfold show_enhanced_stewardship_interface.
    rewrite Hids, Hrid, fetch_source_patient_records_pair.
    fold rows. cbn [frame_length].
    rewrite bool_decide_eq_false_2 by lia.
    by rewrite bool_decide_eq_true_2 by lia.
Qed.
End source_facts.

Lemma generated_record_finds_its_source_records_witness :
  show_enhanced_stewardship_interface Connected Connected 9 initial_session
    (golden_insert_row (H:=agreeable_model) "m" 5 1 (john, j_smith))
    (λ _, "") "" "Data Steward" None ClickReject (one_record_db "pending")
  = {| shown := StError "Please provide comments when rejecting a record.";
       ui_database := one_record_db "pending" |}.
Proof.
  destruct (generated_record_finds_its_source_records (H:=agreeable_model)
              "m" 5%Q 1 (john, j_smith) Connected 9%Q initial_session
              (λ _, "") "" "Data Steward" None ClickReject
              (one_record_db "pending"))
    as (ids & rows & _ & _ & _ & _ & _ & Hshown).
  - apply elem_of_cross_join_lt.
    split; [by constructor|split; [by do 2 constructor|reflexivity]].
  - rewrite Hshown. reflexivity.
Defined.

(** ** Generating golden records again *)

Section generate_again.
Context `{AiFunctions}.


End generate_again.

(** ** The number of comparisons *)

Lemma length_bind_app {A B} (f g : A → list B) (l : list A) :
  length (l ≫= λ x, f x ++ g x)
  = (length (l ≫= f) + length (l ≫= g))%nat.
Proof.
  induction l as [|x l IH]; [done|].
  rewrite !bind_cons, !length_app, IH. lia.
Qed.

Lemma length_bind_guard_split (a : SourceRecord) (l : list SourceRecord) :
  Forall (λ t, patient_id t ≠ patient_id a) l →
  (length (l ≫= λ t2, if bool_decide (patient_id a < patient_id t2)%Z
                      then [(a, t2)] else [])
   + length (l ≫= λ t1, if bool_decide (patient_id t1 < patient_id a)%Z
                        then [(t1, a)] else []))%nat
  = length l.
Proof.
  induction 1 as [|t l Ht Hl IH]; [done|].
  rewrite !bind_cons, !length_app. simpl length at 5.
  repeat case_bool_decide; simpl; lia.
Qed.

Lemma length_cross_join_lt_cons a l :
  Forall (λ t, patient_id t ≠ patient_id a) l →
  length (cross_join_lt (a :: l))
  = (length l + length (cross_join_lt l))%nat.
Proof.
  intros Hfresh. unfold cross_join_lt.
  rewrite bind_cons, length_app, bind_cons.
  rewrite bool_decide_eq_false_2 by lia. rewrite app_nil_l.
  assert (∀ l' : list SourceRecord,
    (l' ≫= λ t1, (a :: l) ≫= λ t2,
       if bool_decide (patient_id t1 < patient_id t2)%Z
       then [(t1, t2)] else [])
    = l' ≫= λ t1,
        (if bool_decide (patient_id t1 < patient_id a)%Z
         then [(t1, a)] else [])
        ++ (l ≫= λ t2, if bool_decide (patient_id t1 < patient_id t2)%Z
                       then [(t1, t2)] else [])) as -> by done.
  rewrite length_bind_app.
  pose proof (length_bind_guard_split a l Hfresh). lia.
Qed.

Section comparison_facts.
Context `{AiFunctions}.

(** X9.  On a table with distinct patient ids the duplicate query compares every
    two patients once: the model is asked about n(n-1)/2 pairs, and neither
    the duplicate frame nor the list of same-person pairs is longer than
    that. *)
Theorem every_two_patients_are_compared_once model table :
  NoDup (patient_id <$> table) →
  (2 * length (cross_join_lt table) = length table * (length table - 1))%nat
  ∧ (length (duplicate_query model table) ≤ length (cross_join_lt table))%nat
  ∧ (length (high_confidence_matches model table)
     ≤ length (cross_join_lt table))%nat.
Proof.
  intros Hnd. split; [|split].
  - induction table as [|a l IH]; [done|].
    rewrite fmap_cons in Hnd. apply NoDup_cons in Hnd as [Ha Hnd].
    rewrite length_cross_join_lt_cons.
    + specialize (IH Hnd). simpl length. nia.
    + apply Forall_forall. intros t Ht Heq. apply Ha.
      rewrite <-Heq. by apply list_elem_of_fmap_2.
  - rewrite duplicate_query_perm.
    etrans; [apply length_filter|]. by rewrite length_fmap.
  - apply length_filter.
Qed.
End comparison_facts.

Lemma every_two_patients_are_compared_once_witness :
  (2 * length (cross_join_lt [jon; john; j_smith]) = 3 * (3 - 1))%nat.
Proof.
  apply (every_two_patients_are_compared_once (H:=agreeable_model) "m"
           [jon; john; j_smith]).
  compute_done.
Defined.

(** ** Splitting and joining the source ids *)

Lemma split_go_not_nil sep current text : split_go sep current text ≠ [].
Proof.
  revert current. induction text as [|c text IH]; intros current; simpl;
    [done|]. by case_bool_decide.
Qed.

Lemma join_cons sep part parts :
  parts ≠ [] → join sep (part :: parts) = part +:+ sep +:+ join sep parts.
Proof. by destruct parts. Qed.

Lemma join_split_go sep current text :
  join (String sep "") (split_go sep current text) = current +:+ text.
Proof.
  revert current. induction text as [|c text IH]; intros current; simpl.
  - by rewrite string_app_empty_r.
  - case_bool_decide as Hc.
    + subst c. rewrite join_cons by apply split_go_not_nil.
      by rewrite IH.
    + by rewrite IH, snoc_app.
Qed.

(** X14.  [fetch_source_patient_records] splits the id list of the record at its
    commas and joins the parts with commas again: the text it splices into
    the statement is the text it was given, whatever that is. *)
Theorem joining_the_split_ids_gives_them_back (source_patient_ids : string) :
  join "," (split ","%char source_patient_ids) = source_patient_ids.
Proof. unfold split. apply (join_split_go ","%char ""). Qed.

(** ** The model selectbox *)

Lemma list_index_lookup x l i :
  list_index x l = Some i → l !! i = Some x.
Proof.
  revert i. induction l as [|y l IH]; intros i; simpl; [done|].
  case_bool_decide as Hy.
  - intros [= <-]. by rewrite Hy.
  - destruct (list_index x l) as [j|]; [|done]. intros [= <-]. by apply IH.
Qed.

Lemma list_index_elem x l : x ∈ l → is_Some (list_index x l).
Proof.
  induction l as [|y l IH]; [by intros ?%elem_of_nil|].
  intros Hin. simpl. case_bool_decide as Hy; [done|].
  apply elem_of_cons in Hin as [->|Hin]; [done|].
  destruct (IH Hin) as [i ->]. done.
Qed.

(** X20.  The model selectbox always has the session's model among its options,
    also a model that is not one of the five listed, and preselects it:
    looking up the index never fails.  The five listed models keep their
    places. *)
Theorem model_selectbox_preselects_the_current_model current_model :
  ∃ i : nat,
    model_index current_model = Some i
    ∧ model_options current_model !! i = Some current_model
    ∧ listed_models `prefix_of` model_options current_model
    ∧ (current_model ∉ listed_models → i = length listed_models).
Proof.
  unfold model_index.
  assert (current_model ∈ model_options current_model) as Hin.
  { unfold model_options. case_bool_decide; [done|].
    apply elem_of_app. right. by apply list_elem_of_singleton. }
  destruct (list_index_elem _ _ Hin) as [i Hi]. exists i.
  split; [done|split; [by apply list_index_lookup|split]].
  - unfold model_options. case_bool_decide; [done|].
    by apply prefix_app_r.
  - intros Hnot. unfold model_options in Hi.
    rewrite bool_decide_eq_false_2 in Hi by done.
    unfold listed_models in Hnot, Hi.
    rewrite !not_elem_of_cons in Hnot.
    destruct Hnot as (?&?&?&?&?&_). simpl in Hi.
    rewrite !bool_decide_eq_false_2 in Hi by done.
    rewrite bool_decide_eq_true_2 in Hi by done.
    by injection Hi as <-.
Qed.

(** ** The metrics of the review page *)

Lemma count_status_filter status status' rows :
  count_status status (filter (λ row, has_status status' row = true) rows)
  = if bool_decide (status = status') then count_status status' rows else 0%nat.
Proof.
  unfold count_status. induction rows as [|row rows IH]; simpl.
  - by case_bool_decide.
  - rewrite !filter_cons.
    destruct (decide (has_status status' row = true)) as [Hrow|Hrow].
    + rewrite filter_cons.
      destruct (decide (has_status status row = true)) as [Hrow'|Hrow'].
      * simpl. rewrite IH. case_bool_decide as Heq; [done|].
        exfalso. apply Heq. unfold has_status in Hrow, Hrow'.
        destruct (row !! "steward_status") as [[]|]; try done.
        apply bool_decide_eq_true in Hrow, Hrow'. congruence.
      * rewrite IH. case_bool_decide as Heq; [|done].
        subst status'. done.
    + rewrite IH. done.
Qed.

Lemma count_status_sum rows :
  (count_status "pending" rows + count_status "approved" rows
   + count_status "rejected" rows ≤ length rows)%nat.
Proof.
  unfold count_status. induction rows as [|row rows IH]; simpl; [done|].
  rewrite !filter_cons.
  assert (has_status "pending" row = true → has_status "approved" row = false
          ∧ has_status "rejected" row = false) as Hp.
  { unfold has_status. destruct (row !! "steward_status") as [[]|]; try done.
    intros ->%bool_decide_eq_true. done. }
  assert (has_status "approved" row = true →
          has_status "rejected" row = false) as Ha.
  { unfold has_status. destruct (row !! "steward_status") as [[]|]; try done.
    intros ->%bool_decide_eq_true. done. }
  destruct (has_status "pending" row) eqn:H1;
    destruct (has_status "approved" row) eqn:H2;
    destruct (has_status "rejected" row) eqn:H3;
    try (destruct (Hp eq_refl); congruence);
    try (specialize (Ha eq_refl); congruence);
    repeat case_decide; try done; simpl; lia.
Qed.

(** X19.  The four metrics of the review page are counted after the status
    filter: the pending, approved and rejected rows never add up to more
    than the total; with a status selected, the total is the number of rows
    of the golden frame with that status, its own count equals the total and
    the two other counts are zero; with [All], the total is the number of
    rows of the frame. *)
Theorem stewardship_metrics_follow_the_filter status_filter rows :
  let metrics := stewardship_metrics status_filter rows in
  (pending_count metrics + approved_count metrics + rejected_count metrics
   ≤ total_records metrics)%nat
  ∧ (status_filter = "All" → total_records metrics = length rows)
  ∧ (status_filter ≠ "All" →
     total_records metrics = count_status status_filter rows
     ∧ pending_count metrics
       = (if bool_decide (status_filter = "pending")
          then total_records metrics else 0%nat)
     ∧ approved_count metrics
       = (if bool_decide (status_filter = "approved")
          then total_records metrics else 0%nat)
     ∧ rejected_count metrics
       = (if bool_decide (status_filter = "rejected")
          then total_records metrics else 0%nat)).
Proof.
  intros metrics. unfold metrics, stewardship_metrics.
  cbn [total_records pending_count approved_count rejected_count].
  split; [apply count_status_sum|split].
  - intros ->. done.
  - intros Hne. unfold apply_status_filter.
    rewrite bool_decide_eq_false_2 by done.
    rewrite !count_status_filter.
    split; [done|].
    repeat split;
      match goal with
      | |- context [bool_decide (status_filter = ?c)] =>
          destruct (decide (status_filter = c)) as [->|Hc];
            [by rewrite !bool_decide_eq_true_2 by done
            |by rewrite !bool_decide_eq_false_2 by congruence]
      end.
Qed.

Lemma stewardship_metrics_follow_the_filter_witness :
  total_records
    (stewardship_metrics "All" [golden_row_of 1 "John Smith" "pending"])
  = 1%nat.
Proof.
  apply (stewardship_metrics_follow_the_filter "All"
           [golden_row_of 1 "John Smith" "pending"]).
  reflexivity.
Defined.

(** ** The prompts *)

Lemma CONCAT_is_Some args : is_Some (CONCAT args) ↔ Forall is_Some args.
Proof.
  induction args as [|a args IH]; simpl.
  - split; [constructor|by eexists].
  - rewrite Forall_cons, <-IH.
    destruct a as [x|], (CONCAT args) as [y|]; simpl; split;
      first [ by intros [? [=]]
            | by intros [_ [? [=]]]
            | by intros [[? [=]] _]
            | by intros; split; eexists
            | by eexists ].
Qed.

Lemma patient_description_is_Some t :
  Forall is_Some (patient_description t) ↔ Forall is_Some (merged_fields t).
Proof.
  unfold patient_description, merged_fields.
  rewrite !Forall_cons, !Forall_nil.
  assert (∀ text : string, is_Some (Some text) ↔ True) as Hsome.
  { intros text. split; [done|by eexists]. }
  rewrite !Hsome. tauto.
Qed.

(** X10.  The prompt of the quality query is built with [to_json] and is never
    NULL.  The prompts that compare two patients are built with [CONCAT],
    which is NULL as soon as one argument is: the similarity prompt and the
    same-person prompt are text exactly when both patients have a name, a
    date of birth and a Medicare number, and the prompt for the golden
    record exactly when none of the sixteen merged fields of either patient
    is NULL. *)
Theorem comparison_prompts_need_every_field t1 t2 :
  is_Some (quality_prompt t1)
  ∧ (is_Some (similarity_prompt t1 t2)
     ↔ Forall is_Some (compared_fields t1 ++ compared_fields t2))
  ∧ (is_Some (same_person_prompt t1 t2)
     ↔ Forall is_Some (compared_fields t1 ++ compared_fields t2))
  ∧ (is_Some (golden_prompt t1 t2)
     ↔ Forall is_Some (merged_fields t1 ++ merged_fields t2)).
Proof.
  assert (∀ text : string, is_Some (Some text) ↔ True) as Hsome.
  { intros text. split; [done|by eexists]. }
  split; [by eexists|split; [|split]].
  - unfold similarity_prompt, compared_fields. rewrite CONCAT_is_Some. simpl.
    rewrite !Forall_cons, !Forall_nil, !Hsome. tauto.
  - unfold same_person_prompt, compared_fields. rewrite CONCAT_is_Some. simpl.
    rewrite !Forall_cons, !Forall_nil, !Hsome. tauto.
  - unfold golden_prompt. rewrite CONCAT_is_Some.
    rewrite !Forall_app, !patient_description_is_Some.
    rewrite !Forall_cons, !Forall_nil, !Hsome. tauto.
Qed.

(** ** The sidebar's cache status *)

Lemma is_cache_valid_stored now t cache_key data s :
  (now - t < CACHE_EXPIRY)%Q →
  is_cache_valid now cache_key (set_cached_data t cache_key data s) = true.
Proof.
  intros Hage. unfold is_cache_valid. simpl.
  rewrite lookup_insert_eq. by apply Qltb_lt.
Qed.

Lemma is_cache_valid_other now t cache_key other data s :
  other ≠ cache_key →
  is_cache_valid now other (set_cached_data t cache_key data s)
  = is_cache_valid now other s.
Proof.
  intros Hne. unfold is_cache_valid. simpl. by rewrite lookup_insert_ne.
Qed.

Lemma is_cache_valid_clear now cache_key s :
  is_cache_valid now cache_key (clear_cache s) = false.
Proof. unfold is_cache_valid. simpl. by rewrite lookup_empty. Qed.

Ltac other_valid :=
  rewrite is_cache_valid_other
    by (apply cache_keys_differ; [compute_done|compute_done|done]).

Section status_facts.
Context `{AiFunctions}.

(** X7.  The sidebar counts no cached dataset right after the cache has been
    cleared.  After the run of [main] that follows, and until the stored
    frames expire, it counts the patients and, for a page that needs them,
    the quality frame and the duplicate frame: 3 of 3 on the overview, 1 of
    3 on the page of the patient records. *)
Theorem cached_count_after_a_load
    conn user_token db page clock now1 now2 now3 s :
  (now1 - patient_store clock < CACHE_EXPIRY)%Q →
  (now2 - quality_store clock < CACHE_EXPIRY)%Q →
  (now3 - duplicate_store clock < CACHE_EXPIRY)%Q →
  cached_count now1 now2 now3 (clear_cache s) = 0%nat
  ∧ cached_count now1 now2 now3
      (session_loaded
         (load_page_data conn user_token db page clock (clear_cache s)))
    = (1 + (if needs_quality page then 1 else 0)
       + (if needs_duplicates page then 1 else 0))%nat.
Proof.
  intros Hpatient Hquality Hduplicate. split.
  - unfold cached_count. by rewrite !is_cache_valid_clear.
  - destruct (load_page_data_cleared conn user_token db page clock s)
      as (patients_frame & quality_frame & duplicate_frame & Hloaded).
    cbv zeta in Hloaded. rewrite Hloaded. cbn [session_loaded].
    unfold cached_count.
    destruct page; cbn [needs_quality needs_duplicates];
      repeat change (cache_key_of ?f (set_cached_data ?t ?k ?d ?s0))
               with (cache_key_of f s0);
      change (cache_key_of ?f (clear_cache ?s0)) with (cache_key_of f s0);
      repeat first [ other_valid
                   | rewrite is_cache_valid_stored by assumption
                   | rewrite is_cache_valid_clear ];
      reflexivity.
Qed.
End status_facts.

Lemma cached_count_after_a_load_witness :
  cached_count 10 10 10
    (session_loaded
       (load_page_data (H:=agreeable_model) Connected None
          (one_record_db "pending") Overview
          {| patient_read := 0; patient_store := 1; quality_read := 2;
             quality_store := 3; duplicate_read := 4; duplicate_store := 5 |}
          (clear_cache initial_session)))
  = 3%nat.
Proof.
  apply (cached_count_after_a_load (H:=agreeable_model) Connected None
           (one_record_db "pending") Overview
           {| patient_read := 0; patient_store := 1; quality_read := 2;
              quality_store := 3; duplicate_read := 4; duplicate_store := 5 |}
           10%Q 10%Q 10%Q initial_session);
    reflexivity.
Defined.

(** ** Saving the configuration *)

Section config_facts.
Context `{AiFunctions}.

(** X8.  Neither form of the configuration page clears the cache, and the cache
    key has neither the model nor the golden table in it: after another
    model or another golden table has been saved, [fetch_quality_data]
    keeps returning, until the entry expires, the assessments the model of
    before has given. *)
Theorem saved_model_keeps_the_cached_assessments
    user_token db now_read now_store s :
  get_cached_data now_read (cache_key_of "fetch_quality_data" s) s = None →
  let first := fetch_quality_data Connected user_token db now_read now_store s in
  returned first
  = Returned (QualityFrame (quality_query (model_name s) (patients db)))
  ∧ ∀ model golden_table conn' user_token' db' now_read' now_store',
      (now_read' - now_store < CACHE_EXPIRY)%Q →
      let s' :=
        save_db_config
          {| catalog_name := catalog_name (db_config s);
             schema_name := schema_name (db_config s);
             table_name := table_name (db_config s);
             golden_table_name := golden_table |}
          (save_ai_config model (session_after first)) in
      let later :=
        fetch_quality_data conn' user_token' db' now_read' now_store' s' in
      model_name s' = model
      ∧ returned later = returned first
      ∧ func_invoked later = false.
Proof.
  intros Hmiss first.
  assert (first
    = {| returned :=
           Returned (QualityFrame (quality_query (model_name s) (patients db)));
         session_after :=
           set_cached_data now_store (cache_key_of "fetch_quality_data" s)
             (QualityFrame (quality_query (model_name s) (patients db))) s;
         func_invoked := true; error_shown := None |}) as Hfirst.
  { apply wrapper_miss; [done|].
    unfold fetch_quality_data_body. by rewrite sql_query_connected. }
  rewrite Hfirst. split; [done|].
  intros model golden_table conn' user_token' db' now_read' now_store' Hage
    s' later.
  split; [done|].
  unfold later, fetch_quality_data.
  erewrite wrapper_hit; [done|].
  eapply get_cached_data_fresh; [..|exact Hage];
    cbn [s' save_db_config save_ai_config session_after set_cached_data
         cache_timestamps data_cache];
    apply lookup_insert_eq.
Qed.
End config_facts.

Lemma saved_model_keeps_the_cached_assessments_witness :
  returned
    (fetch_quality_data (H:=grading_model) Connected None
       (one_record_db "pending") 0 1 initial_session)
  = Returned
      (QualityFrame
         (quality_query (H:=grading_model)
            "databricks-meta-llama-3-3-70b-instruct" [john; j_smith])).
Proof.
  apply (saved_model_keeps_the_cached_assessments (H:=grading_model) None
           (one_record_db "pending") 0%Q 1%Q initial_session).
  reflexivity.
Defined.

(** ** Two callers at once *)

(** C7, as the code has it.  The decorator is the reading of the cache
    followed by the rest of the call, with no lock and no record of a call
    in flight between the two.  So when two callers of a decorated function
    find no valid entry, both on one session state before either has stored
    or each in a session of its own, each of them runs the wrapped
    function, returns the result of its own run and stores it, the later
    store replacing the earlier; neither waits for the other.  A caller
    gets the result of another without a run of its own only when it reads
    the cache after the other has stored, within the expiry time. *)
Theorem overlapping_callers_each_run_the_query :
  (∀ func_name func now_read now_store s,
     async_query_wrapper func_name func now_read now_store s
     = finish_call func_name func
         (get_cached_data now_read (cache_key_of func_name s) s) now_store s)
  ∧ (∀ func_name func_a func_b read_a read_b store_a store_b s
       result_a result_b,
       get_cached_data read_a (cache_key_of func_name s) s = None →
       get_cached_data read_b (cache_key_of func_name s) s = None →
       func_a s = Returned result_a →
       func_b (set_cached_data store_a (cache_key_of func_name s) result_a s)
       = Returned result_b →
       overlapping_calls func_name func_a func_b read_a read_b store_a
         store_b s
       = ({| returned := Returned result_a;
             session_after :=
               set_cached_data store_a (cache_key_of func_name s) result_a s;
             func_invoked := true; error_shown := None |},
          {| returned := Returned result_b;
             session_after :=
               set_cached_data store_b (cache_key_of func_name s) result_b
                 (set_cached_data store_a (cache_key_of func_name s)
                    result_a s);
             func_invoked := true; error_shown := None |}))
  ∧ (∀ func_name func_a func_b read_a read_b store_a store_b s1 s2,
       get_cached_data read_a (cache_key_of func_name s1) s1 = None →
       get_cached_data read_b (cache_key_of func_name s2) s2 = None →
       func_invoked (async_query_wrapper func_name func_a read_a store_a s1)
       = true
       ∧ func_invoked (async_query_wrapper func_name func_b read_b store_b s2)
         = true)
  ∧ (∀ func_name func_a func_b read_a read_b store_a store_b s result_a,
       get_cached_data read_a (cache_key_of func_name s) s = None →
       func_a s = Returned result_a →
       (read_b - store_a < CACHE_EXPIRY)%Q →
       let run_a := async_query_wrapper func_name func_a read_a store_a s in
       let run_b :=
         async_query_wrapper func_name func_b read_b store_b
           (session_after run_a) in
       returned run_b = Returned result_a ∧ func_invoked run_b = false).
Proof.
  split; [done|split; [|split]].
  - intros func_name func_a func_b read_a read_b store_a store_b s
      result_a result_b Hmiss_a Hmiss_b Hfunc_a Hfunc_b.
    unfold overlapping_calls. cbv zeta. rewrite Hmiss_a, Hmiss_b.
    unfold finish_call. rewrite Hfunc_a. cbn [session_after].
    by rewrite Hfunc_b.
  - intros func_name func_a func_b read_a read_b store_a store_b s1 s2
      Hmiss_a Hmiss_b.
    unfold async_query_wrapper. rewrite Hmiss_a, Hmiss_b.
    by destruct (func_a s1), (func_b s2).
  - intros func_name func_a func_b read_a read_b store_a store_b s result_a
      Hmiss Hfunc Hage run_a run_b.
    unfold run_b, run_a.
    rewrite (wrapper_miss _ _ _ _ _ _ Hmiss Hfunc). cbn [session_after].
    erewrite wrapper_hit; [done|]. by apply get_cached_data_stored.
Qed.

Lemma overlapping_callers_each_run_the_query_witness :
  overlapping_calls "fetch_patient_data"
    (fetch_patient_data_body Connected None (one_record_db "pending"))
    (fetch_patient_data_body Connected None (one_record_db "pending"))
    0 0 1 1 initial_session
  = ({| returned := Returned (PatientFrame [john; j_smith]);
        session_after :=
          set_cached_data 1
            (cache_key_of "fetch_patient_data" initial_session)
            (PatientFrame [john; j_smith]) initial_session;
        func_invoked := true; error_shown := None |},
     {| returned := Returned (PatientFrame [john; j_smith]);
        session_after :=
          set_cached_data 1
            (cache_key_of "fetch_patient_data" initial_session)
            (PatientFrame [john; j_smith])
            (set_cached_data 1
               (cache_key_of "fetch_patient_data" initial_session)
               (PatientFrame [john; j_smith]) initial_session);
        func_invoked := true; error_shown := None |}).
Proof.
  apply (proj1 (proj2 overlapping_callers_each_run_the_query));
    reflexivity.
Defined.

(** C7, as stated, fails: two callers of [fetch_patient_data] that both
    find no valid entry both run the query, and the second returns the
    patients it has read itself, not the frame of the first. *)
Lemma overlapping_callers_do_not_share_a_result :
  get_cached_data 0 (cache_key_of "fetch_patient_data" initial_session)
    initial_session = None
  ∧ func_invoked
      (overlapping_calls "fetch_patient_data"
         (fetch_patient_data_body Connected None
            {| patients := [john]; golden_records := [];
               next_identity := 1 |})
         (fetch_patient_data_body Connected None
            {| patients := [john; j_smith]; golden_records := [];
               next_identity := 1 |})
         0 0 1 1 initial_session).1 = true
  ∧ func_invoked
      (overlapping_calls "fetch_patient_data"
         (fetch_patient_data_body Connected None
            {| patients := [john]; golden_records := [];
               next_identity := 1 |})
         (fetch_patient_data_body Connected None
            {| patients := [john; j_smith]; golden_records := [];
               next_identity := 1 |})
         0 0 1 1 initial_session).2 = true
  ∧ returned
      (overlapping_calls "fetch_patient_data"
         (fetch_patient_data_body Connected None
            {| patients := [john]; golden_records := [];
               next_identity := 1 |})
         (fetch_patient_data_body Connected None
            {| patients := [john; j_smith]; golden_records := [];
               next_identity := 1 |})
         0 0 1 1 initial_session).1
    = Returned (PatientFrame [john])
  ∧ returned
      (overlapping_calls "fetch_patient_data"
         (fetch_patient_data_body Connected None
            {| patients := [john]; golden_records := [];
               next_identity := 1 |})
         (fetch_patient_data_body Connected None
            {| patients := [john; j_smith]; golden_records := [];
               next_identity := 1 |})
         0 0 1 1 initial_session).2
    = Returned (PatientFrame [john; j_smith]).
Proof. repeat split. Qed.
